(** * WarpX: lattice-element field gather, staggering flags and setup checks

    A shallow embedding of the parts of WarpX that the specification makes
    claims about:

    - [Lattice]: [LatticeElementFinderDevice::operator()] of
      [Source/AcceleratorLattice/LatticeElementFinder.H];
    - [Driver]: the nodal flags, the constructor and [ReadParameters] of
      [Source/WarpX.cpp];
    - [Buffers] and [Ampere]: the buffer masks and [CalculateCurrentAmpere],
      whose bodies are not part of the sources at hand;
    - [Levels], [Mesh], [Electrostatic]: [AllocLevelData] and [ClearLevel],
      [CellSize], [LowerCorner], [getIndexBox] and the sampling indices of
      [fillSlice] and [sampleAtPoints], and the set-up of the solve in
      [computePhi], all of [Source/WarpX.cpp].

    [amrex::ParticleReal] and [amrex::Real] are read as the real numbers:
    every statement below is about exact real arithmetic. *)

From Stdlib Require Import Reals Lra Lia ZArith List Bool String.
Import ListNotations.

(* ================================================================== *)
(** * The lattice-element finder *)
(* ================================================================== *)

Module Lattice.

Local Open Scope R_scope.

(** The two element types the finder knows ([d_quad], [d_plasmalens]). *)
Inductive ElementType : Type := Quad | PlasmaLens.

Definition ElementType_eqb (a b : ElementType) : bool :=
  match a, b with
  | Quad, Quad | PlasmaLens, PlasmaLens => true
  | _, _ => false
  end.

(** What the gather does to the outside world, in program order: a read of
    an index lookup table at a cell, and an evaluation of an element's
    field. *)
Inductive Event : Type :=
| ReadIndex (t : ElementType) (iz : Z)
| GetField (t : ElementType) (ielement : Z).

(** Computations that log their events and whose memory reads can be
    undefined (a null table, a cell outside the table). *)
Definition M (A : Type) : Type := list Event -> option (A * list Event).

Definition ret {A} (a : A) : M A := fun tr => Some (a, tr).

Definition bind {A B} (m : M A) (k : A -> M B) : M B :=
  fun tr => match m tr with
            | Some (a, tr') => k a tr'
            | None => None
            end.

Notation "x <- m ;; k" := (bind m (fun x => k))
  (at level 61, m at next level, right associativity).

(** The transverse field values an element hands back: Ex, Ey, Bx, By. *)
Record Transverse : Type := mkT { t_Ex : R; t_Ey : R; t_Bx : R; t_By : R }.

Definition Transverse_zero : Transverse := mkT 0 0 0 0.

(** [Ex_sum += Ex; Ey_sum += Ey; Bx_sum += Bx; By_sum += By]. *)
Definition Transverse_add (s f : Transverse) : Transverse :=
  mkT (t_Ex s + t_Ex f) (t_Ey s + t_Ey f) (t_Bx s + t_Bx f) (t_By s + t_By f).

(** The device instance of one element type ([HardEdgedQuadrupoleDevice],
    [HardEdgedPlasmaLensDevice]).  Their headers are not among the sources,
    so [get_field] is whatever the element type computes from
    [(ielement, x, y, z, zpvdt)]. *)
Record ElementDevice : Type := mkElementDevice {
  nelements : Z;
  get_field : Z -> R -> R -> R -> R -> Transverse
}.

(** The six gathered field values of one particle. *)
Record Fields : Type := mkFields {
  field_Ex : R; field_Ey : R; field_Ez : R;
  field_Bx : R; field_By : R; field_Bz : R
}.

(** [struct LatticeElementFinderDevice].  The particle arrays are indexed by
    the particle number; an index table is [None] for the null pointer. *)
Record LatticeElementFinderDevice : Type := mkFinder {
  m_zmin : R;
  m_dz : R;
  m_dt : R;
  m_gamma_boost : R;
  m_uz_boost : R;
  m_time : R;
  m_get_position : Z -> R * R * R;
  m_ux : Z -> R;
  m_uy : Z -> R;
  m_uz : Z -> R;
  d_quad : ElementDevice;
  d_plasmalens : ElementDevice;
  d_quad_indices_arr : option (list Z);
  d_plasmalens_indices_arr : option (list Z)
}.

Definition device_of (F : LatticeElementFinderDevice) (t : ElementType)
  : ElementDevice :=
  match t with Quad => d_quad F | PlasmaLens => d_plasmalens F end.

Definition indices_of (F : LatticeElementFinderDevice) (t : ElementType)
  : option (list Z) :=
  match t with
  | Quad => d_quad_indices_arr F
  | PlasmaLens => d_plasmalens_indices_arr F
  end.

(** [arr[iz]] without the log: defined inside the table only. *)
Definition table_entry (arr : option (list Z)) (iz : Z) : option Z :=
  match arr with
  | None => None
  | Some l => if (0 <=? iz)%Z then nth_error l (Z.to_nat iz) else None
  end.

(** [arr[iz]] as the gather performs it. *)
Definition read_index (t : ElementType) (arr : option (list Z)) (iz : Z)
  : M Z :=
  fun tr => match table_entry arr iz with
            | Some v => Some (v, tr ++ [ReadIndex t iz])
            | None => None
            end.

(** [d.get_field(ielement, x, y, z, zpvdt, Ex, Ey, Bx, By)]. *)
Definition call_get_field (t : ElementType) (d : ElementDevice)
  (ielement : Z) (x y z zpvdt : R) : M Transverse :=
  fun tr => Some (get_field d ielement x y z zpvdt, tr ++ [GetField t ielement]).

(** [static_cast<int>(r)]: the integer part, rounded towards zero. *)
Definition real_to_int (r : R) : Z :=
  if Rle_dec 0 r then Int_part r else (- Int_part (- r))%Z.

Section WithLightSpeed.

(** [PhysConst::c]; its header is not among the sources. *)
Variable c : R.

Definition inv_c2 : R := 1 / (c * c).

(** Line 164: the particle's Lorentz factor from its momentum per mass. *)
Definition particle_gamma (F : LatticeElementFinderDevice) (i : Z) : R :=
  sqrt (1 + (m_ux F i * m_ux F i + m_uy F i * m_uy F i + m_uz F i * m_uz F i)
            * inv_c2).

(** Line 165: [vzp = m_uz[i]/gamma]. *)
Definition particle_vzp (F : LatticeElementFinderDevice) (i : Z) : R :=
  m_uz F i / particle_gamma F i.

(** Line 161: the particle's cell in the index grid. *)
Definition cell_index (F : LatticeElementFinderDevice) (i : Z) : Z :=
  let '(_, _, z) := m_get_position F i in
  real_to_int ((z - m_zmin F) / m_dz F).

(** Lines 167-173: the two axial positions handed to [get_field], the
    particle's [z] and its [z] one step later, both in the lab frame. *)
Definition lab_positions (F : LatticeElementFinderDevice) (i : Z) : R * R :=
  let '(_, _, z) := m_get_position F i in
  let zpvdt := z + particle_vzp F i * m_dt F in
  if Rlt_dec 1 (m_gamma_boost F) then
    (m_gamma_boost F * z + m_uz_boost F * m_time F,
     m_gamma_boost F * zpvdt + m_uz_boost F * (m_time F + m_dt F))
  else (z, zpvdt).

(** Lines 182-192 and 194-204: the block of one element type, which adds
    the element's field to the running sums. *)
Definition element_block (t : ElementType) (d : ElementDevice)
  (arr : option (list Z)) (iz : Z) (x y z zpvdt : R) (sums : Transverse)
  : M Transverse :=
  if (0 <? nelements d)%Z then
    v <- read_index t arr iz ;;
    if (-1 <? v)%Z then
      ielement <- read_index t arr iz ;;
      f <- call_get_field t d ielement x y z zpvdt ;;
      ret (Transverse_add sums f)
    else ret sums
  else ret sums.

(** Lines 175-204: the lab-frame sums over both element types. *)
Definition lattice_sums (F : LatticeElementFinderDevice) (i : Z)
  : M Transverse :=
  let '(x, y, _) := m_get_position F i in
  let iz := cell_index F i in
  let '(z, zpvdt) := lab_positions F i in
  s1 <- element_block Quad (d_quad F) (d_quad_indices_arr F) iz
          x y z zpvdt Transverse_zero ;;
  element_block PlasmaLens (d_plasmalens F) (d_plasmalens_indices_arr F) iz
          x y z zpvdt s1.

(** Lines 209-212: the four boosted values. *)
Definition boost_formulas (gamma_boost uz_boost : R) (s : Transverse)
  : Transverse :=
  mkT (gamma_boost * t_Ex s - uz_boost * t_By s)
      (gamma_boost * t_Ey s + uz_boost * t_Bx s)
      (gamma_boost * t_Bx s + uz_boost * t_Ey s * inv_c2)
      (gamma_boost * t_By s - uz_boost * t_Ex s * inv_c2).

(** Lines 206-217: the sums are replaced by the boosted values only when
    [m_gamma_boost > 1]. *)
Definition boost_fields (gamma_boost uz_boost : R) (s : Transverse)
  : Transverse :=
  if Rlt_dec 1 gamma_boost then boost_formulas gamma_boost uz_boost s else s.

(** Lines 219-224, with [Ez_sum] and [Bz_sum] the constants [0]. *)
Definition accumulate (fld : Fields) (s : Transverse) : Fields :=
  let Ez_sum := 0 in
  let Bz_sum := 0 in
  mkFields (field_Ex fld + t_Ex s) (field_Ey fld + t_Ey s)
           (field_Ez fld + Ez_sum)
           (field_Bx fld + t_Bx s) (field_By fld + t_By s)
           (field_Bz fld + Bz_sum).

(** [LatticeElementFinderDevice::operator()]: the six fields come in by
    reference and go out updated. *)
Definition operator_call (F : LatticeElementFinderDevice) (i : Z)
  (fld : Fields) : M Fields :=
  s <- lattice_sums F i ;;
  ret (accumulate fld (boost_fields (m_gamma_boost F) (m_uz_boost F) s)).

(** The index tables can be read wherever the gather reads them. *)
Definition tables_ok (F : LatticeElementFinderDevice) (i : Z) : Prop :=
  forall t, (0 < nelements (device_of F t))%Z ->
            exists v, table_entry (indices_of F t) (cell_index F i) = Some v.

End WithLightSpeed.

(** The finder with one element type taken out of the lattice: no elements
    of that type, no index table for it. *)
Definition without_type (t : ElementType) (F : LatticeElementFinderDevice)
  : LatticeElementFinderDevice :=
  match t with
  | Quad =>
      mkFinder (m_zmin F) (m_dz F) (m_dt F) (m_gamma_boost F) (m_uz_boost F)
               (m_time F) (m_get_position F) (m_ux F) (m_uy F) (m_uz F)
               (mkElementDevice 0 (get_field (d_quad F))) (d_plasmalens F)
               None (d_plasmalens_indices_arr F)
  | PlasmaLens =>
      mkFinder (m_zmin F) (m_dz F) (m_dt F) (m_gamma_boost F) (m_uz_boost F)
               (m_time F) (m_get_position F) (m_ux F) (m_uy F) (m_uz F)
               (d_quad F) (mkElementDevice 0 (get_field (d_plasmalens F)))
               (d_quad_indices_arr F) None
  end.

(** A lattice with a single focusing element whose field is linear in the
    transverse position, and no plasma lens. *)
Definition example_quad : ElementDevice :=
  mkElementDevice 1 (fun _ x y _ _ => mkT x (- y) y x).

Definition no_elements : ElementDevice :=
  mkElementDevice 0 (fun _ _ _ _ _ => Transverse_zero).

(** One particle at [(1, 2, 5/2)] with momentum [(0, 0, uz)], on an index
    grid of four unit cells of which the third holds element [0]. *)
Definition example_finder (gamma_boost uz_boost uz : R)
  : LatticeElementFinderDevice :=
  mkFinder 0 1 1 gamma_boost uz_boost 0
           (fun _ => (1, 2, 5 / 2))
           (fun _ => 0) (fun _ => 0) (fun _ => uz)
           example_quad no_elements
           (Some [-1; -1; 0; -1]%Z) None.

Definition example_fields : Fields := mkFields 10 20 30 40 50 60.

End Lattice.

(* ================================================================== *)
(** * The top-level driver object ([Source/WarpX.cpp]) *)
(* ================================================================== *)

Module Driver.

Local Open Scope string_scope.
Local Open Scope Z_scope.

(** [BL_SPACEDIM], fixed when the program is built. *)
Inductive SpaceDim : Type := Dim2 | Dim3.

Definition BL_SPACEDIM (d : SpaceDim) : Z :=
  match d with Dim2 => 2 | Dim3 => 3 end.

(** [amrex::IntVect]: one integer per dimension of the build. *)
Definition IntVect : Type := list Z.

(** Lines 30-38. *)
Definition Bx_nodal_flag (d : SpaceDim) : IntVect :=
  match d with Dim3 => [1; 0; 0] | Dim2 => [1; 0] end.
Definition By_nodal_flag (d : SpaceDim) : IntVect :=
  match d with Dim3 => [0; 1; 0] | Dim2 => [0; 0] end.
Definition Bz_nodal_flag (d : SpaceDim) : IntVect :=
  match d with Dim3 => [0; 0; 1] | Dim2 => [0; 1] end.

(** Lines 40-48. *)
Definition Ex_nodal_flag (d : SpaceDim) : IntVect :=
  match d with Dim3 => [0; 1; 1] | Dim2 => [0; 1] end.
Definition Ey_nodal_flag (d : SpaceDim) : IntVect :=
  match d with Dim3 => [1; 0; 1] | Dim2 => [1; 1] end.
Definition Ez_nodal_flag (d : SpaceDim) : IntVect :=
  match d with Dim3 => [1; 1; 0] | Dim2 => [1; 0] end.

(** Lines 50-58. *)
Definition jx_nodal_flag (d : SpaceDim) : IntVect :=
  match d with Dim3 => [0; 1; 1] | Dim2 => [0; 1] end.
Definition jy_nodal_flag (d : SpaceDim) : IntVect :=
  match d with Dim3 => [1; 0; 1] | Dim2 => [1; 1] end.
Definition jz_nodal_flag (d : SpaceDim) : IntVect :=
  match d with Dim3 => [1; 1; 0] | Dim2 => [1; 0] end.

(** The six field components the staggering claim ranges over. *)
Inductive Component : Type := Ex | Ey | Ez | Bx | By | Bz.

Definition nodal_flag (d : SpaceDim) (f : Component) : IntVect :=
  match f with
  | Ex => Ex_nodal_flag d | Ey => Ey_nodal_flag d | Ez => Ez_nodal_flag d
  | Bx => Bx_nodal_flag d | By => By_nodal_flag d | Bz => Bz_nodal_flag d
  end.

Definition Component_eqb (f g : Component) : bool :=
  match f, g with
  | Ex, Ex | Ey, Ey | Ez, Ez | Bx, Bx | By, By | Bz, Bz => true
  | _, _ => false
  end.

Definition IntVect_eqb (a b : IntVect) : bool :=
  if list_eq_dec Z.eq_dec a b then true else false.

Definition all_components : list Component := [Ex; Ey; Ez; Bx; By; Bz].

(** The pairs of different components that share a flag. *)
Definition shared_flags (d : SpaceDim) : list (Component * Component) :=
  filter (fun p => negb (Component_eqb (fst p) (snd p))
                   && IntVect_eqb (nodal_flag d (fst p)) (nodal_flag d (snd p)))
         (list_prod all_components all_components).

(** A run of setup code either goes on with a value or ends the program in
    [amrex::Abort] with a message. *)
Inductive Outcome (A : Type) : Type :=
| Ok (a : A)
| Abort (msg : string).
Arguments Ok {A} a.
Arguments Abort {A} msg.

Definition obind {A B} (m : Outcome A) (k : A -> Outcome B) : Outcome B :=
  match m with
  | Ok a => k a
  | Abort msg => Abort msg
  end.

Notation "x <~ m ;; k" := (obind m (fun x => k))
  (at level 61, m at next level, right associativity).

Definition aborts {A} (m : Outcome A) : Prop := exists msg, m = Abort msg.

(** The input deck as [ParmParse] serves it: one optional, already typed
    value per name that [ReadParameters] asks for. *)
Record ParmParse : Type := mkParmParse {
  in_max_step : option Z;
  in_stop_time : option R;
  in_amr_check_file : option string;
  in_amr_check_int : option Z;
  in_amr_plot_file : option string;
  in_amr_plot_int : option Z;
  in_amr_restart : option string;
  in_warpx_cfl : option R;
  in_warpx_verbose : option Z;
  in_warpx_regrid_int : option Z;
  in_warpx_do_pml : option Z;
  in_warpx_pml_ncell : option Z;
  in_warpx_do_moving_window : option Z;
  in_warpx_moving_window_dir : option string;
  in_warpx_moving_window_v : option R;
  in_warpx_do_plasma_injection : option Z;
  in_warpx_num_injected_species : option Z;
  in_warpx_injected_plasma_species : option (list Z);
  in_warpx_do_electrostatic : option Z;
  in_warpx_use_laser : option bool;
  in_warpx_plot_raw_fields : option Z;
  in_interpolation_nox : option Z;
  in_interpolation_noy : option Z;
  in_interpolation_noz : option Z;
  in_algo_current_deposition : option Z;
  in_algo_charge_deposition : option Z;
  in_algo_field_gathering : option Z;
  in_algo_particle_pusher : option Z
}.

(** What the base class ([amrex::AmrCore]) has settled before the body of
    the constructor runs. *)
Record AmrCore : Type := mkAmrCore {
  max_level : Z;
  isAllPeriodic : bool;
  ProbLo : Z -> R;
  MaxRefRatio : Z -> Z
}.

(** The members and statics of [WarpX] that [ReadParameters] and the
    constructor write. *)
Record WarpX : Type := mkWarpX {
  max_step : Z;
  stop_time : R;
  check_file : string;
  check_int : Z;
  plot_file : string;
  plot_int : Z;
  restart_chkfile : string;
  cfl : R;
  verbose : Z;
  regrid_int : Z;
  do_pml : Z;
  pml_ncell : Z;
  do_moving_window : Z;
  moving_window_dir : Z;
  moving_window_x : R;
  moving_window_v : R;
  do_plasma_injection : Z;
  num_injected_species : Z;
  injected_plasma_species : list Z;
  do_electrostatic : Z;
  use_laser : bool;
  plot_raw_fields : Z;
  nox : Z;
  noy : Z;
  noz : Z;
  current_deposition_algo : Z;
  charge_deposition_algo : Z;
  field_gathering_algo : Z;
  particle_pusher_algo : Z;
  istep : list Z;
  nsubsteps : list Z;
  t_new : list R;
  t_old : list R;
  dt : list R;
  field_levels : Z
}.

(** [pp.query(name, var)]: the variable keeps its value when the name is
    not in the input deck. *)
Definition query {A} (entry : option A) (var : A) : A :=
  match entry with Some v => v | None => var end.

(** [pp.get(name, var)]: the name has to be there. *)
Definition get {A} (name : string) (entry : option A) : Outcome A :=
  match entry with
  | Some v => Ok v
  | None => Abort ("ParmParse::get: " ++ name ++ " not found")
  end.

(** [pp.getarr(name, vec, 0, num)]: [num] values from the first on. *)
Definition getarr (name : string) (entry : option (list Z)) (num : Z)
  : Outcome (list Z) :=
  match entry with
  | Some l =>
      if (0 <=? num) && (num <=? Z.of_nat (List.length l))
      then Ok (firstn (Z.to_nat num) l)
      else Abort ("ParmParse::getarr: " ++ name ++ " not enough values")
  | None => Abort ("ParmParse::getarr: " ++ name ++ " not found")
  end.

(** [vec.resize(num)] with a signed [num]: a negative one is a size no
    vector can have, and the program ends there. *)
Definition resize (num : Z) : Outcome unit :=
  if num <? 0 then Abort "std::length_error" else Ok tt.

(** [vec[i] = v] inside the vector. *)
Fixpoint list_set {A} (l : list A) (i : nat) (v : A) : list A :=
  match l, i with
  | [], _ => []
  | _ :: rest, O => v :: rest
  | a :: rest, S j => a :: list_set rest j v
  end.

(** Lines 156-172: the direction of the moving window. *)
Definition parse_moving_window_dir (d : SpaceDim) (s : string) : Outcome Z :=
  if (s =? "x")%string || (s =? "X")%string then Ok 0
  else if match d with
          | Dim3 => (s =? "y")%string || (s =? "Y")%string
          | Dim2 => false
          end then Ok 1
  else if (s =? "z")%string || (s =? "Z")%string then Ok (BL_SPACEDIM d - 1)
  else Abort ("Unknown moving_window_dir: " ++ s).

Section Setup.

(** [PhysConst::c]; its header is not among the sources. *)
Variable c : R.

(** The dimensionality of the build. *)
Variable d : SpaceDim.

(** Lines 117-215.  Malformed values in the input deck are outside this
    model: an entry that is present has the type its variable has. *)
Definition ReadParameters (base : AmrCore) (pp : ParmParse) (w : WarpX)
  : Outcome WarpX :=
  let max_step' := query (in_max_step pp) (max_step w) in
  let stop_time' := query (in_stop_time pp) (stop_time w) in
  let check_file' := query (in_amr_check_file pp) (check_file w) in
  let check_int' := query (in_amr_check_int pp) (check_int w) in
  let plot_file' := query (in_amr_plot_file pp) (plot_file w) in
  let plot_int' := query (in_amr_plot_int pp) (plot_int w) in
  let restart_chkfile' := query (in_amr_restart pp) (restart_chkfile w) in
  let cfl' := query (in_warpx_cfl pp) (cfl w) in
  let verbose' := query (in_warpx_verbose pp) (verbose w) in
  let regrid_int' := query (in_warpx_regrid_int pp) (regrid_int w) in
  let '(do_pml', pml_ncell') :=
    if isAllPeriodic base then (0, pml_ncell w)
    else (query (in_warpx_do_pml pp) (do_pml w),
          query (in_warpx_pml_ncell pp) (pml_ncell w)) in
  let do_moving_window' :=
    query (in_warpx_do_moving_window pp) (do_moving_window w) in
  mw <~ (if negb (do_moving_window' =? 0) then
           s <~ get "moving_window_dir" (in_warpx_moving_window_dir pp) ;;
           dir <~ parse_moving_window_dir d s ;;
           let x := ProbLo base dir in
           v <~ get "moving_window_v" (in_warpx_moving_window_v pp) ;;
           Ok (dir, x, (v * c)%R)
         else Ok (moving_window_dir w, moving_window_x w, moving_window_v w)) ;;
  let '(moving_window_dir', moving_window_x', moving_window_v') := mw in
  let do_plasma_injection' :=
    query (in_warpx_do_plasma_injection pp) (do_plasma_injection w) in
  inj <~ (if negb (do_plasma_injection' =? 0) then
            n <~ get "num_injected_species"
                     (in_warpx_num_injected_species pp) ;;
            _ <~ resize n ;;
            l <~ getarr "injected_plasma_species"
                        (in_warpx_injected_plasma_species pp) n ;;
            Ok (n, l)
          else Ok (num_injected_species w, injected_plasma_species w)) ;;
  let '(num_injected_species', injected_plasma_species') := inj in
  let do_electrostatic' :=
    query (in_warpx_do_electrostatic pp) (do_electrostatic w) in
  let use_laser' := query (in_warpx_use_laser pp) (use_laser w) in
  let plot_raw_fields' :=
    query (in_warpx_plot_raw_fields pp) (plot_raw_fields w) in
  let nox' := query (in_interpolation_nox pp) (nox w) in
  let noy' := query (in_interpolation_noy pp) (noy w) in
  let noz' := query (in_interpolation_noz pp) (noz w) in
  if negb (nox' =? noy') || negb (nox' =? noz') then
    Abort "warpx.nox, noy and noz must be equal"
  else if nox' <? 1 then
    Abort "warpx.nox must >= 1"
  else
    Ok {| max_step := max_step'; stop_time := stop_time';
          check_file := check_file'; check_int := check_int';
          plot_file := plot_file'; plot_int := plot_int';
          restart_chkfile := restart_chkfile';
          cfl := cfl'; verbose := verbose'; regrid_int := regrid_int';
          do_pml := do_pml'; pml_ncell := pml_ncell';
          do_moving_window := do_moving_window';
          moving_window_dir := moving_window_dir';
          moving_window_x := moving_window_x';
          moving_window_v := moving_window_v';
          do_plasma_injection := do_plasma_injection';
          num_injected_species := num_injected_species';
          injected_plasma_species := injected_plasma_species';
          do_electrostatic := do_electrostatic';
          use_laser := use_laser';
          plot_raw_fields := plot_raw_fields';
          nox := nox'; noy := noy'; noz := noz';
          current_deposition_algo :=
            query (in_algo_current_deposition pp) (current_deposition_algo w);
          charge_deposition_algo :=
            query (in_algo_charge_deposition pp) (charge_deposition_algo w);
          field_gathering_algo :=
            query (in_algo_field_gathering pp) (field_gathering_algo w);
          particle_pusher_algo :=
            query (in_algo_particle_pusher pp) (particle_pusher_algo w);
          istep := istep w; nsubsteps := nsubsteps w;
          t_new := t_new w; t_old := t_old w; dt := dt w;
          field_levels := field_levels w |}.

(** The orders the three queries of lines 197-199 leave in the statics. *)
Definition requested_orders (pp : ParmParse) (w : WarpX) : Z * Z * Z :=
  (query (in_interpolation_nox pp) (nox w),
   query (in_interpolation_noy pp) (noy w),
   query (in_interpolation_noz pp) (noz w)).

(** Lines 96-99: [nsubsteps] is resized to [nlevs_max] ones, then the loop
    over the levels [1 .. maxLevel()] stores the refinement ratios. *)
Definition init_nsubsteps (base : AmrCore) (nlevs_max : Z) : list Z :=
  fold_left (fun l lev => list_set l lev (MaxRefRatio base (Z.of_nat lev - 1)))
            (seq 1 (Z.to_nat (max_level base)))
            (repeat 1 (Z.to_nat nlevs_max)).

(** Lines 78-111: the constructor.  [new_mypc] stands for the constructor
    of the particle container (line 106), which is outside the sources. *)
Definition WarpX_ctor (base : AmrCore) (pp : ParmParse)
  (new_mypc : Outcome unit) (w0 : WarpX) : Outcome WarpX :=
  w <~ ReadParameters base pp w0 ;;
  if negb (max_level base =? 0) then
    Abort "WarpX: max_level must be zero"
  else
    let nlevs_max := max_level base + 1 in
    let n := Z.to_nat nlevs_max in
    _ <~ new_mypc ;;
    Ok {| max_step := max_step w; stop_time := stop_time w;
          check_file := check_file w; check_int := check_int w;
          plot_file := plot_file w; plot_int := plot_int w;
          restart_chkfile := restart_chkfile w;
          cfl := cfl w; verbose := verbose w; regrid_int := regrid_int w;
          do_pml := do_pml w; pml_ncell := pml_ncell w;
          do_moving_window := do_moving_window w;
          moving_window_dir := moving_window_dir w;
          moving_window_x := moving_window_x w;
          moving_window_v := moving_window_v w;
          do_plasma_injection := do_plasma_injection w;
          num_injected_species := num_injected_species w;
          injected_plasma_species := injected_plasma_species w;
          do_electrostatic := do_electrostatic w;
          use_laser := use_laser w;
          plot_raw_fields := plot_raw_fields w;
          nox := nox w; noy := noy w; noz := noz w;
          current_deposition_algo := current_deposition_algo w;
          charge_deposition_algo := charge_deposition_algo w;
          field_gathering_algo := field_gathering_algo w;
          particle_pusher_algo := particle_pusher_algo w;
          istep := repeat 0 n;
          nsubsteps := init_nsubsteps base nlevs_max;
          t_new := repeat 0%R n;
          t_old := repeat (-1e100)%R n;
          dt := repeat 1e100%R n;
          field_levels := nlevs_max |}.

End Setup.

(** The statics as lines 19-28 initialise them; the members declared in the
    header, which is not among the sources, start at zero here. *)
Definition initial_WarpX : WarpX :=
  {| max_step := 0; stop_time := 0%R;
     check_file := ""; check_int := 0; plot_file := ""; plot_int := 0;
     restart_chkfile := "";
     cfl := 0%R; verbose := 0; regrid_int := 0;
     do_pml := 0; pml_ncell := 0;
     do_moving_window := 0; moving_window_dir := 0;
     moving_window_x := 0%R; moving_window_v := 0%R;
     do_plasma_injection := 0; num_injected_species := 0;
     injected_plasma_species := [];
     do_electrostatic := 0; use_laser := false; plot_raw_fields := 0;
     nox := 1; noy := 1; noz := 1;
     current_deposition_algo := 3; charge_deposition_algo := 0;
     field_gathering_algo := 1; particle_pusher_algo := 0;
     istep := []; nsubsteps := []; t_new := []; t_old := []; dt := [];
     field_levels := 0 |}.

(** An input deck that names nothing. *)
Definition empty_ParmParse : ParmParse :=
  mkParmParse None None None None None None None None None None None None
              None None None None None None None None None None None None
              None None None None.

(** An input deck that only sets the three interpolation orders. *)
Definition orders_ParmParse (x y z : Z) : ParmParse :=
  mkParmParse None None None None None None None None None None None None
              None None None None None None None None None
              (Some x) (Some y) (Some z)
              None None None None.

(** A base class with [lev] as maximum level, on a periodic unit domain. *)
Definition example_AmrCore (lev : Z) : AmrCore :=
  mkAmrCore lev true (fun _ => 0%R) (fun _ => 2).

End Driver.

(* ================================================================== *)
(** * Buffer masks at refinement boundaries *)
(* ================================================================== *)

Module Buffers.

Local Open Scope Z_scope.

Section Masks.

(** The cells of a level, and the distance between two of them counted in
    cells. *)
Variable Cell : Type.
Variable Cell_eq_dec : forall a b : Cell, {a = b} + {a <> b}.
Variable distance : Cell -> Cell -> Z.

(** Modelled from the spec: the routine that fills
    [WarpX::gather_buffer_masks] and [WarpX::current_buffer_masks] is not
    among the sources.  The distance of a cell to the nearest cell of the
    coarse-fine interface; [None] when the level has no such interface. *)
Fixpoint interface_distance (coarse_fine_boundary : list Cell) (cell : Cell)
  : option Z :=
  match coarse_fine_boundary with
  | [] => None
  | b :: rest =>
      match interface_distance rest cell with
      | None => Some (distance cell b)
      | Some m => Some (Z.min (distance cell b) m)
      end
  end.

(** What the words "the distance to the nearest coarse-fine interface"
    say: [m] is the distance from [cell] to some cell of the interface, and
    no cell of the interface is nearer. *)
Definition nearest_at (coarse_fine_boundary : list Cell) (cell : Cell)
  (m : Z) : Prop :=
  (exists b, In b coarse_fine_boundary /\ distance cell b = m) /\
  (forall b, In b coarse_fine_boundary -> m <= distance cell b).

(** Modelled from the spec: the mask builder is not among the sources.  A
    cell is buffer when it is fewer than [width] cells away from the
    interface. *)
Definition is_buffer (coarse_fine_boundary : list Cell) (width : Z)
  (cell : Cell) : bool :=
  match interface_distance coarse_fine_boundary cell with
  | Some m => m <? width
  | None => false
  end.

(** The two flags of a cell: field-gather buffer, current-deposition
    buffer. *)
Record Flags : Type := mkFlags { gather_buffer : bool; deposit_buffer : bool }.

(** The masks of a level: one entry per cell of the level. *)
Definition BufferMasks : Type := list (Cell * Flags).

(** Modelled from the spec: the mask builder is not among the sources.
    [Build(level_geometry, coarse_fine_boundary, gather_width,
    deposit_width)] of the spec, with the widths
    [WarpX::n_field_gather_buffer] and [WarpX::n_current_deposition_buffer]. *)
Definition Build (level_geometry : list Cell)
  (coarse_fine_boundary : list Cell)
  (n_field_gather_buffer n_current_deposition_buffer : Z) : BufferMasks :=
  map (fun cell =>
         (cell, mkFlags (is_buffer coarse_fine_boundary n_field_gather_buffer cell)
                        (is_buffer coarse_fine_boundary
                                   n_current_deposition_buffer cell)))
      level_geometry.

(** Modelled from the spec: [Classify(cell_index)], a lookup in the masks
    that hands back both flags. *)
Fixpoint Classify (masks : BufferMasks) (cell : Cell) : option Flags :=
  match masks with
  | [] => None
  | (c0, f) :: rest =>
      if Cell_eq_dec c0 cell then Some f else Classify rest cell
  end.

End Masks.

(** A level in one dimension: cells are integers, their distance is the
    difference of their indices. *)
Definition distance_1d (a b : Z) : Z := Z.abs (a - b).

Definition example_masks : BufferMasks Z :=
  Build Z distance_1d [0; 1; 2; 3; 4; 5; 6; 7] [0; 7] 2 3.

End Buffers.

(* ================================================================== *)
(** * The current from Ampere's law *)
(* ================================================================== *)

Module Ampere.

Local Open Scope R_scope.

Section Solver.

(** The points of the mesh of one level. *)
Variable Cell : Type.

(** A field component on the mesh, and the three components of a vector
    field ([std::array<std::unique_ptr<amrex::MultiFab>, 3>]). *)
Definition ScalarField : Type := Cell -> R.

Record VectorField : Type := mkVector {
  comp_x : ScalarField;
  comp_y : ScalarField;
  comp_z : ScalarField
}.

(** The finite-difference derivatives along the three axes, as the stencil
    coefficients of the solver give them. *)
Variable Dx Dy Dz : ScalarField -> ScalarField.

(** [PhysConst::mu0]. *)
Variable mu0 : R.

(** The discrete curl built from the three derivatives. *)
Definition curl (F : VectorField) : VectorField :=
  mkVector (fun p => Dy (comp_z F) p - Dz (comp_y F) p)
           (fun p => Dz (comp_x F) p - Dx (comp_z F) p)
           (fun p => Dx (comp_y F) p - Dy (comp_x F) p).

(** Modelled from the spec: only the declaration of
    [FiniteDifferenceSolver::CalculateCurrentAmpere] is among the sources,
    its body is not.  [Jfield] is the output argument, handed in with its old
    contents and handed back; [Bfield] is read.  The spec gives
    [edge_lengths] and [lev] no role, they are left out. *)
Definition CalculateCurrentAmpere (Jfield Bfield : VectorField)
  : VectorField :=
  let curlB := curl Bfield in
  mkVector (fun p => comp_x curlB p / mu0)
           (fun p => comp_y curlB p / mu0)
           (fun p => comp_z curlB p / mu0).

End Solver.

(** A one-dimensional mesh along [z] with unit spacing: the derivative
    along [z] is the forward difference, the other two vanish. *)
Definition example_Dz (f : Z -> R) (k : Z) : R := f (k + 1)%Z - f k.
Definition example_D0 (f : Z -> R) (k : Z) : R := 0.

(** [B = (0, k, 0)]: a field that grows linearly along [z]. *)
Definition example_B : VectorField Z :=
  mkVector Z (fun _ => 0) (fun k => IZR k) (fun _ => 0).

End Ampere.

(* ================================================================== *)
(** * The field arrays of a level ([Source/WarpX.cpp], lines 226-255) *)
(* ================================================================== *)

Module Levels.

Local Open Scope Z_scope.

Section Alloc.

(** [amrex::BoxArray] and [amrex::DistributionMapping]: what they hold
    plays no role here. *)
Variable BoxArray : Type.
Variable DistributionMapping : Type.

(** [amrex::convert(ba, flag)]: the box array [ba] taken to the index type
    [flag]. *)
Variable convert : BoxArray -> Driver.IntVect -> BoxArray.

(** The dimensionality of the build. *)
Variable d : Driver.SpaceDim.

(** A [MultiFab] as its constructor is given it: box array, distribution,
    number of components, number of ghost cells.  The values it holds when
    fresh are not specified. *)
Record MultiFab : Type := mkMultiFab {
  boxArray : BoxArray;
  DistributionMap : DistributionMapping;
  nComp : Z;
  nGrow : Z
}.

(** [std::array<std::unique_ptr<MultiFab>, 3>]: three pointers, [None] for
    the null pointer. *)
Record FieldArray : Type := mkFieldArray {
  comp0 : option MultiFab;
  comp1 : option MultiFab;
  comp2 : option MultiFab
}.

Definition null_array : FieldArray := mkFieldArray None None None.

Definition set_comp (a : FieldArray) (i : nat) (p : option MultiFab)
  : FieldArray :=
  match i with
  | 0%nat => mkFieldArray p (comp1 a) (comp2 a)
  | 1%nat => mkFieldArray (comp0 a) p (comp2 a)
  | 2%nat => mkFieldArray (comp0 a) (comp1 a) p
  | _ => a
  end.

(** The members [current], [Efield], [Bfield]: one array per level. *)
Record LevelData : Type := mkLevelData {
  current : list FieldArray;
  Efield : list FieldArray;
  Bfield : list FieldArray
}.

(** Lines 108-110 of the constructor: the three vectors resized to
    [nlevs_max] arrays of null pointers. *)
Definition resize_levels (nlevs_max : Z) : LevelData :=
  let v := repeat null_array (Z.to_nat nlevs_max) in
  mkLevelData v v v.

(** [v[lev][i].reset(p)]: the level is not checked against the size of the
    vector, so the access is undefined outside of it. *)
Definition reset (v : list FieldArray) (lev : Z) (i : nat)
  (p : option MultiFab) : option (list FieldArray) :=
  if 0 <=? lev then
    match nth_error v (Z.to_nat lev) with
    | Some a => Some (Driver.list_set v (Z.to_nat lev) (set_comp a i p))
    | None => None
    end
  else None.

Definition andThen {A B} (m : option A) (k : A -> option B) : option B :=
  match m with Some a => k a | None => None end.

Notation "x <?- m ;; k" := (andThen m (fun x => k))
  (at level 61, m at next level, right associativity).

(** Lines 236-255, with [nox] the static [WarpX::nox]. *)
Definition AllocLevelData (nox : Z) (lev : Z) (ba : BoxArray)
  (dm : DistributionMapping) (st : LevelData) : option LevelData :=
  let ng := nox in
  let mf flag := Some (mkMultiFab (convert ba flag) dm 1 ng) in
  b0 <?- reset (Bfield st) lev 0 (mf (Driver.Bx_nodal_flag d)) ;;
  b1 <?- reset b0 lev 1 (mf (Driver.By_nodal_flag d)) ;;
  b2 <?- reset b1 lev 2 (mf (Driver.Bz_nodal_flag d)) ;;
  e0 <?- reset (Efield st) lev 0 (mf (Driver.Ex_nodal_flag d)) ;;
  e1 <?- reset e0 lev 1 (mf (Driver.Ey_nodal_flag d)) ;;
  e2 <?- reset e1 lev 2 (mf (Driver.Ez_nodal_flag d)) ;;
  j0 <?- reset (current st) lev 0 (mf (Driver.jx_nodal_flag d)) ;;
  j1 <?- reset j0 lev 1 (mf (Driver.jy_nodal_flag d)) ;;
  j2 <?- reset j1 lev 2 (mf (Driver.jz_nodal_flag d)) ;;
  Some (mkLevelData j2 e2 b2).

(** Lines 229-233: one turn of the loop of [ClearLevel]. *)
Definition ClearLevel_body (lev : Z) (st : option LevelData) (i : nat)
  : option LevelData :=
  s <?- st ;;
  j <?- reset (current s) lev i None ;;
  e <?- reset (Efield s) lev i None ;;
  b <?- reset (Bfield s) lev i None ;;
  Some (mkLevelData j e b).

(** Lines 226-234. *)
Definition ClearLevel (lev : Z) (st : LevelData) : option LevelData :=
  fold_left (ClearLevel_body lev) (seq 0 3) (Some st).

End Alloc.

End Levels.

(* ================================================================== *)
(** * Cell sizes, index boxes and sampling ([Source/WarpX.cpp], lines
      321-346 and 426-580) *)
(* ================================================================== *)

Module Mesh.

Local Open Scope R_scope.

(** [amrex::Box]: the two corners, one index per dimension. *)
Record Box : Type := mkBox { smallEnd : list Z; bigEnd : list Z }.

(** [amrex::RealBox]: [lo(i)] and [hi(i)]. *)
Record RealBox : Type := mkRealBox { rb_lo : nat -> R; rb_hi : nat -> R }.

(** What the gathered code reads of an [amrex::Geometry]. *)
Record Geometry : Type := mkGeometry {
  geom_ProbLo : nat -> R;
  geom_CellSize : nat -> R;
  geom_Domain : Box
}.

(** [std::floor], stored in an [int]. *)
Definition floor (r : R) : Z := Int_part r.

(** Lines 321-333, with [gm] the geometry of the level. *)
Definition CellSize (d : Driver.SpaceDim) (gm : Geometry) : list R :=
  let dx := geom_CellSize gm in
  match d with
  | Driver.Dim3 => [dx 0%nat; dx 1%nat; dx 2%nat]
  | Driver.Dim2 => [dx 0%nat; 1; dx 1%nat]
  end.

(** Lines 335-346.  [RealBox grid_box{bx, dx, problo}] has its low corner at
    [problo[i] + bx.smallEnd(i) * dx[i]]. *)
Definition LowerCorner (d : Driver.SpaceDim) (gm : Geometry) (bx : Box)
  : list R :=
  let xyzmin i :=
    geom_ProbLo gm i + IZR (nth i (smallEnd bx) 0%Z) * geom_CellSize gm i in
  match d with
  | Driver.Dim3 => [xyzmin 0%nat; xyzmin 1%nat; xyzmin 2%nat]
  | Driver.Dim2 => [xyzmin 0%nat; -1e100; xyzmin 1%nat]
  end.

Fixpoint zip_with {A B C} (f : A -> B -> C) (l : list A) (m : list B)
  : list C :=
  match l, m with
  | a :: l', b :: m' => f a b :: zip_with f l' m'
  | _, _ => []
  end.

(** [a & b]: the intersection of two boxes. *)
Definition Box_and (a b : Box) : Box :=
  mkBox (zip_with Z.max (smallEnd a) (smallEnd b))
        (zip_with Z.min (bigEnd a) (bigEnd b)).

(** [iv] lies in [b]. *)
Definition Box_contains (b : Box) (iv : list Z) : Prop :=
  Forall2 Z.le (smallEnd b) iv /\ Forall2 Z.le iv (bigEnd b).

(** Lines 428-444 (3D builds only).  The [BL_ASSERT] of line 431 is
    compiled in debug builds only and is left out. *)
Definition getIndexBox (gm : Geometry) (real_box : RealBox) : Box :=
  let slice_lo :=
    map (fun i => floor ((rb_lo real_box i - geom_ProbLo gm i)
                         / geom_CellSize gm i)) [0; 1; 2]%nat in
  let slice_hi :=
    map (fun i => floor ((rb_hi real_box i - geom_ProbLo gm i)
                         / geom_CellSize gm i)) [0; 1; 2]%nat in
  Box_and (mkBox slice_lo slice_hi) (geom_Domain gm).

(** Lines 452-455 of [fillSlice]: the index box of the plane [z = z_coord]
    through the problem domain [dom]. *)
Definition slice_box (gm : Geometry) (dom : RealBox) (z_coord : R) : Box :=
  let real_slice :=
    mkRealBox (fun i => if Nat.eqb i 2 then z_coord else rb_lo dom i)
              (fun i => if Nat.eqb i 2 then z_coord else rb_hi dom i) in
  getIndexBox gm real_slice.

(** Lines 513-515 and 564-566, one direction: the index at which a
    component with nodal flag [flag] is read for the coordinate [x]. *)
Definition sample_index (gm : Geometry) (flag : Driver.IntVect) (dir : nat)
  (x : R) : Z :=
  floor ((x - geom_ProbLo gm dir
          + 0.5 * geom_CellSize gm dir * IZR (nth dir flag 0%Z))
         / geom_CellSize gm dir).

(** Lines 564-566: the three indices for the point [(x, y, z)]. *)
Definition sample_point (gm : Geometry) (flag : Driver.IntVect)
  (x y z : R) : list Z :=
  [sample_index gm flag 0 x; sample_index gm flag 1 y;
   sample_index gm flag 2 z].

(** Lines 509-515 of [fillSlice]: the indices read for the cell [(i, j)]
    of the slice. *)
Definition slice_sample_point (gm : Geometry) (flag : Driver.IntVect)
  (z_coord : R) (i j : Z) : list Z :=
  let x := geom_ProbLo gm 0%nat + IZR i * geom_CellSize gm 0%nat in
  let y := geom_ProbLo gm 1%nat + IZR j * geom_CellSize gm 1%nat in
  let z := z_coord in
  sample_point gm flag x y z.

(** Lines 483-489 and 540-546: the flags of the six sampled components, in
    the order of the array [flags]. *)
Definition sampled_flags : list Driver.IntVect :=
  map (Driver.nodal_flag Driver.Dim3) Driver.all_components.

(** A unit mesh of [8 x 8 x 8] cells with its low corner at the origin. *)
Definition example_geom : Geometry :=
  mkGeometry (fun _ => 0) (fun _ => 1) (mkBox [0; 0; 0]%Z [7; 7; 7]%Z).

End Mesh.

(* ================================================================== *)
(** * The electrostatic potential ([Source/WarpX.cpp], lines 348-409) *)
(* ================================================================== *)

Module Electrostatic.

Local Open Scope R_scope.

Section ComputePhi.

(** The points of [rhs]: those of the box array of [rho], grown by one
    ghost cell. *)
Variable Point : Type.

(** The values of one component of a [MultiFab] on these points. *)
Definition Fab : Type := Point -> R.

(** The dimensionality of the build, and [PhysConst::ep0]. *)
Variable d : Driver.SpaceDim.
Variable ep0 : R.

(** The points of [domain_box] (lines 385-387): the domain in the index
    type of [rhs], shrunk by one on every side. *)
Variable domain_box : Point -> bool.

(** [MGT_Solver] set up with [mg_bc], then [solve_nodal(phi, rhs, ...)]:
    the potential it leaves in [phi]. *)
Variable solve_nodal : list Z -> Fab -> Fab -> Fab.

(** [MultiFab::Copy(dst, src, 0, 0, 1, 1)]: one component with one ghost
    cell, that is every point of [dst]. *)
Definition Copy (dst src : Fab) : Fab := fun p => src p.

(** [mf.mult(val, 1)] and [mf.plus(val, 0, 1, 1)], again on every point. *)
Definition mult (mf : Fab) (val : R) : Fab := fun p => mf p * val.
Definition plus (mf : Fab) (val : R) : Fab := fun p => mf p + val.

(** [fab.setComplement(val, box, 0, 1)]: [val] on the points outside of
    [box]. *)
Definition setComplement (mf : Fab) (val : R) (box : Point -> bool) : Fab :=
  fun p => if box p then mf p else val.

(** Lines 352-391: the boundary flags and the right-hand side handed to the
    solver.  [rhs0] is what the fresh [rhs] holds. *)
Definition solver_input (isAllPeriodic : bool)
  (sumParticleCharge ProbSize : R) (rho rhs0 : Fab) : list Z * Fab :=
  let rhs := Copy rhs0 rho in
  let rhs := mult rhs (-1 / ep0) in
  let n := Z.to_nat (2 * Driver.BL_SPACEDIM d) in
  if isAllPeriodic then
    let offset := sumParticleCharge in
    let offset := offset * ((-1 / ep0) / ProbSize) in
    let rhs := plus rhs (- offset) in
    let mg_bc := repeat 0%Z n in
    let rhs := Copy rhs rho in
    (mg_bc, rhs)
  else
    let mg_bc := repeat 1%Z n in
    let rhs := setComplement rhs 0 domain_box in
    (mg_bc, rhs).

(** Lines 348-409: the potential left in [phi[0]]. *)
Definition computePhi (isAllPeriodic : bool)
  (sumParticleCharge ProbSize : R) (rho rhs0 : Fab) : Fab :=
  let phi : Fab := fun _ => 0 in
  let '(mg_bc, rhs) :=
    solver_input isAllPeriodic sumParticleCharge ProbSize rho rhs0 in
  solve_nodal mg_bc rhs phi.

End ComputePhi.

End Electrostatic.

(* ================================================================== *)
(** * The blocks of [ReadParameters] by name *)
(* ================================================================== *)

Module ReadBlocks.

Import Driver.
Local Open Scope string_scope.
Local Open Scope Z_scope.

Section Blocks.

Variable c : R.
Variable d : SpaceDim.

(** Lines 153-178: direction, position and speed of the moving window. *)
Definition moving_window_block (base : AmrCore) (pp : ParmParse) (w : WarpX)
  : Outcome (Z * R * R) :=
  if negb (query (in_warpx_do_moving_window pp) (do_moving_window w) =? 0)
  then
    s <~ get "moving_window_dir" (in_warpx_moving_window_dir pp) ;;
    dir <~ parse_moving_window_dir d s ;;
    let x := ProbLo base dir in
    v <~ get "moving_window_v" (in_warpx_moving_window_v pp) ;;
    Ok (dir, x, (v * c)%R)
  else Ok (moving_window_dir w, moving_window_x w, moving_window_v w).

(** Lines 180-186: the injected species. *)
Definition injection_block (pp : ParmParse) (w : WarpX)
  : Outcome (Z * list Z) :=
  if negb (query (in_warpx_do_plasma_injection pp) (do_plasma_injection w)
           =? 0)
  then
    n <~ get "num_injected_species" (in_warpx_num_injected_species pp) ;;
    _ <~ resize n ;;
    l <~ getarr "injected_plasma_species"
                (in_warpx_injected_plasma_species pp) n ;;
    Ok (n, l)
  else Ok (num_injected_species w, injected_plasma_species w).

(** The members and statics as a run of [ReadParameters] that passes all
    its checks leaves them. *)
Definition read_state (base : AmrCore) (pp : ParmParse) (w : WarpX)
  (mw : Z * R * R) (inj : Z * list Z) : WarpX :=
  let '(do_pml', pml_ncell') :=
    if isAllPeriodic base then (0, pml_ncell w)
    else (query (in_warpx_do_pml pp) (do_pml w),
          query (in_warpx_pml_ncell pp) (pml_ncell w)) in
  let '(moving_window_dir', moving_window_x', moving_window_v') := mw in
  let '(num_injected_species', injected_plasma_species') := inj in
  {| max_step := query (in_max_step pp) (max_step w);
     stop_time := query (in_stop_time pp) (stop_time w);
     check_file := query (in_amr_check_file pp) (check_file w);
     check_int := query (in_amr_check_int pp) (check_int w);
     plot_file := query (in_amr_plot_file pp) (plot_file w);
     plot_int := query (in_amr_plot_int pp) (plot_int w);
     restart_chkfile := query (in_amr_restart pp) (restart_chkfile w);
     cfl := query (in_warpx_cfl pp) (cfl w);
     verbose := query (in_warpx_verbose pp) (verbose w);
     regrid_int := query (in_warpx_regrid_int pp) (regrid_int w);
     do_pml := do_pml'; pml_ncell := pml_ncell';
     do_moving_window :=
       query (in_warpx_do_moving_window pp) (do_moving_window w);
     moving_window_dir := moving_window_dir';
     moving_window_x := moving_window_x';
     moving_window_v := moving_window_v';
     do_plasma_injection :=
       query (in_warpx_do_plasma_injection pp) (do_plasma_injection w);
     num_injected_species := num_injected_species';
     injected_plasma_species := injected_plasma_species';
     do_electrostatic :=
       query (in_warpx_do_electrostatic pp) (do_electrostatic w);
     use_laser := query (in_warpx_use_laser pp) (use_laser w);
     plot_raw_fields :=
       query (in_warpx_plot_raw_fields pp) (plot_raw_fields w);
     nox := query (in_interpolation_nox pp) (nox w);
     noy := query (in_interpolation_noy pp) (noy w);
     noz := query (in_interpolation_noz pp) (noz w);
     current_deposition_algo :=
       query (in_algo_current_deposition pp) (current_deposition_algo w);
     charge_deposition_algo :=
       query (in_algo_charge_deposition pp) (charge_deposition_algo w);
     field_gathering_algo :=
       query (in_algo_field_gathering pp) (field_gathering_algo w);
     particle_pusher_algo :=
       query (in_algo_particle_pusher pp) (particle_pusher_algo w);
     istep := istep w; nsubsteps := nsubsteps w;
     t_new := t_new w; t_old := t_old w; dt := dt w;
     field_levels := field_levels w |}.

(** Lines 195-206: the two checks on the interpolation orders. *)
Definition check_orders (pp : ParmParse) (w : WarpX) : Outcome unit :=
  let '(x, y, z) := requested_orders pp w in
  if negb (x =? y) || negb (x =? z) then
    Abort "warpx.nox, noy and noz must be equal"
  else if x <? 1 then
    Abort "warpx.nox must >= 1"
  else Ok tt.

End Blocks.

(** An input deck that asks for a moving window along [dir] with speed
    [v] in units of the speed of light. *)
Definition window_ParmParse (dir : option string) (v : option R)
  : ParmParse :=
  mkParmParse None None None None None None None None None None None None
              (Some 1) dir v
              None None None None None None None None None
              None None None None.

(** An input deck that injects [n] species out of the list [l]. *)
Definition injection_ParmParse (n : Z) (l : list Z) : ParmParse :=
  mkParmParse None None None None None None None None None None None None
              None None None
              (Some 1) (Some n) (Some l)
              None None None None None None
              None None None None.

End ReadBlocks.

(* ================================================================== *)
(** * Properties of the lattice-element gather *)
(* ================================================================== *)

Section LatticeFacts.

Import Lattice.
Local Open Scope R_scope.

Variable c : R.

Lemma Fields_eq (a b : Fields) :
  field_Ex a = field_Ex b -> field_Ey a = field_Ey b ->
  field_Ez a = field_Ez b -> field_Bx a = field_Bx b ->
  field_By a = field_By b -> field_Bz a = field_Bz b -> a = b.
Proof.
  destruct a, b; simpl; intros; subst; reflexivity.
Qed.

Lemma Transverse_eq (a b : Transverse) :
  t_Ex a = t_Ex b -> t_Ey a = t_Ey b ->
  t_Bx a = t_Bx b -> t_By a = t_By b -> a = b.
Proof.
  destruct a, b; simpl; intros; subst; reflexivity.
Qed.

(** What one element block does, case by case. *)
Lemma element_block_run t d arr iz x y z zpvdt sums tr :
  element_block t d arr iz x y z zpvdt sums tr =
  if (0 <? nelements d)%Z then
    match table_entry arr iz with
    | None => None
    | Some v =>
        if (-1 <? v)%Z then
          Some (Transverse_add sums (get_field d v x y z zpvdt),
                tr ++ [ReadIndex t iz; ReadIndex t iz; GetField t v])
        else Some (sums, tr ++ [ReadIndex t iz])
    end
  else Some (sums, tr).
Proof.
  unfold element_block, bind, read_index, call_get_field, ret.
  destruct (0 <? nelements d)%Z; [|reflexivity].
  destruct (table_entry arr iz) as [v|]; [|reflexivity].
  destruct (-1 <? v)%Z; [|reflexivity].
  rewrite <- !app_assoc. reflexivity.
Qed.

(** A block whose table can be read, or whose type has no elements, runs
    to its end. *)
Lemma element_block_defined t d arr iz x y z zpvdt sums tr :
  ((0 < nelements d)%Z -> exists v, table_entry arr iz = Some v) ->
  exists s tr', element_block t d arr iz x y z zpvdt sums tr = Some (s, tr').
Proof.
  intros Hok. rewrite element_block_run.
  destruct (0 <? nelements d)%Z eqn:Hn; [|eauto].
  apply Z.ltb_lt in Hn. destruct (Hok Hn) as [v ->].
  destruct (-1 <? v)%Z; eauto.
Qed.

Lemma lattice_sums_defined F i tr :
  tables_ok F i -> exists s tr', lattice_sums c F i tr = Some (s, tr').
Proof.
  intros Hok. unfold lattice_sums.
  destruct (m_get_position F i) as [[x y] z0].
  destruct (lab_positions c F i) as [z zpvdt].
  unfold bind.
  destruct (element_block_defined Quad (d_quad F) (d_quad_indices_arr F)
              (cell_index F i) x y z zpvdt Transverse_zero tr (Hok Quad))
    as (s1 & tr1 & ->).
  apply element_block_defined. exact (Hok PlasmaLens).
Qed.

Lemma operator_call_run F i fld tr s tr' :
  lattice_sums c F i tr = Some (s, tr') ->
  operator_call c F i fld tr =
  Some (accumulate fld (boost_fields c (m_gamma_boost F) (m_uz_boost F) s), tr').
Proof.
  intros H. unfold operator_call, bind, ret. rewrite H. reflexivity.
Qed.

(** The field of the element found at the particle's cell is evaluated at
    the particle's transverse position and at the two axial positions of
    [lab_positions]. *)
Lemma quad_field_at_lab_positions F i v tr :
  (0 < nelements (d_quad F))%Z ->
  table_entry (d_quad_indices_arr F) (cell_index F i) = Some v ->
  (-1 < v)%Z ->
  (nelements (d_plasmalens F) <= 0)%Z ->
  lattice_sums c F i tr =
  Some (Transverse_add Transverse_zero
          (get_field (d_quad F) v
             (fst (fst (m_get_position F i))) (snd (fst (m_get_position F i)))
             (fst (lab_positions c F i)) (snd (lab_positions c F i))),
        tr ++ [ReadIndex Quad (cell_index F i);
               ReadIndex Quad (cell_index F i); GetField Quad v]).
Proof.
  intros Hn Hv Hpos Hp. unfold lattice_sums, bind.
  destruct (m_get_position F i) as [[x y] z0].
  destruct (lab_positions c F i) as [z zpvdt]. simpl.
  apply Z.ltb_lt in Hn, Hpos. apply Z.ltb_ge in Hp.
  rewrite element_block_run, Hv, Hn, Hpos. cbv beta iota.
  rewrite element_block_run, Hp. reflexivity.
Qed.

(** C1: when [m_gamma_boost > 1], a gather whose tables can be read
    returns, and what it adds to the six fields is the lab-frame sum [s] of
    the element lookup taken to the boosted frame by
    [E'x = gamma Ex - v By], [E'y = gamma Ey + v Bx],
    [B'x = gamma Bx + v Ey / c^2], [B'y = gamma By - v Ex / c^2], with [v]
    the finder's [m_uz_boost]; the z-components get nothing. *)
Theorem operator_call_boosts_lab_fields F i fld tr :
  1 < m_gamma_boost F ->
  tables_ok F i ->
  exists s tr',
    lattice_sums c F i tr = Some (s, tr') /\
    operator_call c F i fld tr =
    Some (mkFields
            (field_Ex fld
             + (m_gamma_boost F * t_Ex s - m_uz_boost F * t_By s))
            (field_Ey fld
             + (m_gamma_boost F * t_Ey s + m_uz_boost F * t_Bx s))
            (field_Ez fld)
            (field_Bx fld
             + (m_gamma_boost F * t_Bx s + m_uz_boost F * t_Ey s / (c * c)))
            (field_By fld
             + (m_gamma_boost F * t_By s - m_uz_boost F * t_Ex s / (c * c)))
            (field_Bz fld),
          tr').
Proof.
  intros Hboost Hok.
  destruct (lattice_sums_defined F i tr Hok) as (s & tr' & Hs).
  exists s, tr'. split; [exact Hs|].
  rewrite (operator_call_run F i fld tr s tr' Hs).
  do 2 f_equal.
  unfold boost_fields.
  destruct (Rlt_dec 1 (m_gamma_boost F)) as [_|Hn]; [|contradiction].
  apply Fields_eq; simpl; unfold inv_c2, Rdiv; ring.
Qed.

(** C6: for a boost with [gamma_boost >= 1] and [uz_boost] on its mass
    shell, [gamma_boost^2 = 1 + uz_boost^2 / c^2], the field transform of
    the gather is undone by the transform of the opposite boost, and the
    other way round. *)
Theorem boost_round_trip gamma_boost uz_boost s :
  1 <= gamma_boost ->
  gamma_boost * gamma_boost = 1 + uz_boost * uz_boost * inv_c2 c ->
  boost_fields c gamma_boost (- uz_boost)
               (boost_fields c gamma_boost uz_boost s) = s /\
  boost_fields c gamma_boost uz_boost
               (boost_fields c gamma_boost (- uz_boost) s) = s.
Proof.
  intros _ Hshell. unfold boost_fields.
  destruct (Rlt_dec 1 gamma_boost) as [_|_]; [|split; reflexivity].
  assert (Hdet : forall a : R,
             (gamma_boost * gamma_boost
              - uz_boost * uz_boost * inv_c2 c) * a = a).
  { intros a. rewrite Hshell. ring. }
  split; apply Transverse_eq; simpl.
  all: match goal with
       | |- _ = ?a =>
           transitivity ((gamma_boost * gamma_boost
                          - uz_boost * uz_boost * inv_c2 c) * a);
           [ring | apply Hdet]
       end.
Qed.

(** Off the mass shell the transform can lose the field: with [c = 1],
    [gamma_boost = 2] and [uz_boost = 2] it sends [Ex = By = 1] to zero, so
    nothing could undo it. *)
Remark boost_off_shell_collapses :
  boost_fields 1 2 2 (mkT 1 0 0 1) = boost_fields 1 2 2 Transverse_zero.
Proof.
  unfold boost_fields. destruct (Rlt_dec 1 2) as [_|Hn]; [|exfalso; lra].
  apply Transverse_eq; simpl; unfold inv_c2; lra.
Qed.

(** The Lorentz factor of a particle is at least one, so the division that
    gives its velocity is a genuine one. *)
Lemma particle_gamma_ge_1 F i : 1 <= particle_gamma c F i.
Proof.
  unfold particle_gamma, inv_c2.
  rewrite <- sqrt_1 at 1. apply sqrt_le_1_alt.
  assert (Hinv : 0 <= 1 / (c * c)).
  { destruct (Req_dec (c * c) 0) as [E|E].
    - rewrite E. unfold Rdiv. rewrite Rinv_0. lra.
    - apply Rlt_le, Rdiv_lt_0_compat; [lra|]. nra. }
  assert (Hu : 0 <= m_ux F i * m_ux F i + m_uy F i * m_uy F i
                    + m_uz F i * m_uz F i) by nra.
  nra.
Qed.

(** C7: the gather takes the particle's Lorentz factor as
    [sqrt (1 + (ux^2 + uy^2 + uz^2) / c^2)], its axial velocity as
    [uz / gamma], and extrapolates the axial position over the step with
    that velocity (before taking it to the lab frame when boosted). *)
Theorem particle_velocity_from_momentum F i :
  let u2 := m_ux F i * m_ux F i + m_uy F i * m_uy F i
            + m_uz F i * m_uz F i in
  let gamma := sqrt (1 + u2 / (c * c)) in
  let z := snd (m_get_position F i) in
  particle_gamma c F i = gamma /\
  1 <= gamma /\
  particle_vzp c F i = m_uz F i / gamma /\
  (~ 1 < m_gamma_boost F ->
   snd (lab_positions c F i) = z + m_uz F i / gamma * m_dt F) /\
  (1 < m_gamma_boost F ->
   snd (lab_positions c F i) =
   m_gamma_boost F * (z + m_uz F i / gamma * m_dt F)
   + m_uz_boost F * (m_time F + m_dt F)).
Proof.
  intros u2 gamma z.
  assert (Hg : particle_gamma c F i = gamma).
  { unfold particle_gamma, gamma, u2, inv_c2, Rdiv.
    f_equal. ring. }
  split; [exact Hg|].
  split; [rewrite <- Hg; apply particle_gamma_ge_1|].
  split; [unfold particle_vzp; rewrite Hg; reflexivity|].
  unfold lab_positions, particle_vzp, z. rewrite Hg.
  destruct (m_get_position F i) as [[x y] z0]. simpl.
  destruct (Rlt_dec 1 (m_gamma_boost F)); split; intros; simpl;
    try contradiction; reflexivity.
Qed.

(** C9: a gather whose tables can be read returns; it leaves [field_Ez]
    and [field_Bz] as they were, adds the lattice contribution to the four
    transverse fields, and leaves all six as they were when that
    contribution is zero. *)
Theorem operator_call_increments F i fld tr :
  tables_ok F i ->
  exists s tr' out,
    lattice_sums c F i tr = Some (s, tr') /\
    operator_call c F i fld tr = Some (out, tr') /\
    let contribution :=
      boost_fields c (m_gamma_boost F) (m_uz_boost F) s in
    field_Ez out = field_Ez fld /\
    field_Bz out = field_Bz fld /\
    field_Ex out = field_Ex fld + t_Ex contribution /\
    field_Ey out = field_Ey fld + t_Ey contribution /\
    field_Bx out = field_Bx fld + t_Bx contribution /\
    field_By out = field_By fld + t_By contribution /\
    (s = Transverse_zero -> out = fld) /\
    (contribution = Transverse_zero -> out = fld).
Proof.
  intros Hok.
  destruct (lattice_sums_defined F i tr Hok) as (s & tr' & Hs).
  exists s, tr', (accumulate fld
                    (boost_fields c (m_gamma_boost F) (m_uz_boost F) s)).
  split; [exact Hs|].
  split; [apply operator_call_run; exact Hs|].
  cbv zeta.
  assert (Hzero : boost_fields c (m_gamma_boost F) (m_uz_boost F) s
                  = Transverse_zero ->
                  accumulate fld
                    (boost_fields c (m_gamma_boost F) (m_uz_boost F) s)
                  = fld).
  { intros ->. apply Fields_eq; simpl; ring. }
  repeat split; simpl; try ring; try exact Hzero.
  intros ->. apply Hzero.
  unfold boost_fields, boost_formulas, Transverse_zero. simpl.
  destruct (Rlt_dec 1 (m_gamma_boost F)); [|reflexivity].
  apply Transverse_eq; simpl; ring.
Qed.

Lemma cell_index_without t F i :
  cell_index (without_type t F) i = cell_index F i.
Proof. destruct t; reflexivity. Qed.

Lemma lab_positions_without t F i :
  lab_positions c (without_type t F) i = lab_positions c F i.
Proof. destruct t; reflexivity. Qed.

Lemma position_without t F i :
  m_get_position (without_type t F) i = m_get_position F i.
Proof. destruct t; reflexivity. Qed.

(** The gather written out with the two blocks in their case form. *)
Lemma operator_call_blocks F i fld tr :
  operator_call c F i fld tr =
  let '(x, y, _) := m_get_position F i in
  let '(z, zpvdt) := lab_positions c F i in
  match element_block Quad (d_quad F) (d_quad_indices_arr F)
          (cell_index F i) x y z zpvdt Transverse_zero tr with
  | None => None
  | Some (s1, tr1) =>
      match element_block PlasmaLens (d_plasmalens F)
              (d_plasmalens_indices_arr F) (cell_index F i)
              x y z zpvdt s1 tr1 with
      | None => None
      | Some (s2, tr2) =>
          Some (accumulate fld
                  (boost_fields c (m_gamma_boost F) (m_uz_boost F) s2), tr2)
      end
  end.
Proof.
  unfold operator_call, lattice_sums, bind, ret.
  destruct (m_get_position F i) as [[x y] z0].
  destruct (lab_positions c F i) as [z zpvdt].
  destruct (element_block Quad _ _ _ _ _ _ _ _ _) as [[s1 tr1]|];
    [|reflexivity].
  destruct (element_block PlasmaLens _ _ _ _ _ _ _ _ _) as [[s2 tr2]|];
    reflexivity.
Qed.

Ltac trace_cases :=
  repeat match goal with
         | H : In _ _ |- _ => simpl in H
         | H : _ \/ _ |- _ => destruct H as [H|H]
         | H : False |- _ => destruct H
         | H : ReadIndex _ _ = ReadIndex _ _ |- _ => inversion H; clear H; subst
         | H : GetField _ _ = GetField _ _ |- _ => inversion H; clear H; subst
         | H : ReadIndex _ _ = GetField _ _ |- _ => discriminate H
         | H : GetField _ _ = ReadIndex _ _ |- _ => discriminate H
         end.

(** The three ways a block with a readable table can go. *)
Lemma element_block_cases t d arr iz :
  ((0 < nelements d)%Z -> exists v, table_entry arr iz = Some v) ->
  ((nelements d <= 0)%Z /\
   forall x y z zpvdt sums tr,
     element_block t d arr iz x y z zpvdt sums tr = Some (sums, tr)) \/
  ((0 < nelements d)%Z /\
   exists v, table_entry arr iz = Some v /\ (v <= -1)%Z /\
   forall x y z zpvdt sums tr,
     element_block t d arr iz x y z zpvdt sums tr =
     Some (sums, tr ++ [ReadIndex t iz])) \/
  ((0 < nelements d)%Z /\
   exists v, table_entry arr iz = Some v /\ (-1 < v)%Z /\
   forall x y z zpvdt sums tr,
     element_block t d arr iz x y z zpvdt sums tr =
     Some (Transverse_add sums (get_field d v x y z zpvdt),
           tr ++ [ReadIndex t iz; ReadIndex t iz; GetField t v])).
Proof.
  intros Hok.
  destruct (0 <? nelements d)%Z eqn:Hn.
  - apply Z.ltb_lt in Hn. destruct (Hok Hn) as [v Ev].
    destruct (-1 <? v)%Z eqn:Hv.
    + right; right. split; [exact Hn|]. exists v.
      apply Z.ltb_lt in Hv. repeat split; auto.
      intros. rewrite element_block_run, Ev.
      apply Z.ltb_lt in Hn, Hv. rewrite Hn, Hv. reflexivity.
    + right; left. split; [exact Hn|]. exists v.
      apply Z.ltb_ge in Hv. repeat split; auto; try lia.
      intros. rewrite element_block_run, Ev.
      apply Z.ltb_lt in Hn. apply Z.ltb_ge in Hv. rewrite Hn, Hv.
      reflexivity.
  - left. apply Z.ltb_ge in Hn. split; [exact Hn|].
    intros. rewrite element_block_run.
    apply Z.ltb_ge in Hn. rewrite Hn. reflexivity.
Qed.

Lemma element_block_none t f arr iz x y z zpvdt sums tr :
  element_block t (mkElementDevice 0 f) arr iz x y z zpvdt sums tr
  = Some (sums, tr).
Proof. rewrite element_block_run. reflexivity. Qed.

(** C10: in a gather whose tables can be read, the index table of an
    element type is read only if the type has elements, and only at the
    particle's cell; an element's field is evaluated only if the entry at
    that cell is above [-1]; and a type without elements, or without an
    element at that cell, has no field evaluated and can be taken out of the
    lattice without changing the gathered fields. *)
Theorem element_lookup_guarded F i fld :
  tables_ok F i ->
  exists out tr,
    operator_call c F i fld [] = Some (out, tr) /\
    forall t,
      (forall k, In (ReadIndex t k) tr ->
         (0 < nelements (device_of F t))%Z /\ k = cell_index F i) /\
      (forall e, In (GetField t e) tr ->
         (0 < nelements (device_of F t))%Z /\
         table_entry (indices_of F t) (cell_index F i) = Some e /\
         (-1 < e)%Z) /\
      ((nelements (device_of F t) <= 0)%Z \/
       (exists v, table_entry (indices_of F t) (cell_index F i) = Some v /\
                  (v <= -1)%Z) ->
       (forall e, ~ In (GetField t e) tr) /\
       exists tr2,
         operator_call c (without_type t F) i fld [] = Some (out, tr2)).
Proof.
  intros Hok.
  pose proof (Hok Quad) as Hq. pose proof (Hok PlasmaLens) as Hp.
  simpl in Hq, Hp.
  assert (Hw : forall t, operator_call c (without_type t F) i fld [] =
    let '(x, y, _) := m_get_position F i in
    let '(z, zpvdt) := lab_positions c F i in
    match element_block Quad (d_quad (without_type t F))
            (d_quad_indices_arr (without_type t F))
            (cell_index F i) x y z zpvdt Transverse_zero [] with
    | None => None
    | Some (s1, tr1) =>
        match element_block PlasmaLens (d_plasmalens (without_type t F))
                (d_plasmalens_indices_arr (without_type t F)) (cell_index F i)
                x y z zpvdt s1 tr1 with
        | None => None
        | Some (s2, tr2) =>
            Some (accumulate fld
                    (boost_fields c (m_gamma_boost F) (m_uz_boost F) s2), tr2)
        end
    end).
  { intros t. rewrite operator_call_blocks, position_without,
      lab_positions_without, cell_index_without.
    destruct t; reflexivity. }
  rewrite operator_call_blocks. revert Hw.
  destruct (m_get_position F i) as [[x y] z0].
  destruct (lab_positions c F i) as [z zpvdt]. intros Hw.
  destruct (element_block_cases Quad _ _ _ Hq)
    as [[Hnq Eq]|[(Hnq & vq & Evq & Hvq & Eq)|(Hnq & vq & Evq & Hvq & Eq)]];
  destruct (element_block_cases PlasmaLens _ _ _ Hp)
    as [[Hnp Ep]|[(Hnp & vp & Evp & Hvp & Ep)|(Hnp & vp & Evp & Hvp & Ep)]];
  rewrite Eq, Ep; eexists; eexists; (split; [reflexivity|]);
  intros t; destruct t; simpl device_of; simpl indices_of;
  (split; [intros k Hin; trace_cases; split; auto; lia|]);
  (split; [intros e Hin; trace_cases; repeat split; auto; lia|]);
  (intros [Hle|(v & Ev & Hv)];
   [try lia | try (rewrite Ev in *; (congruence || (exfalso;
       match goal with H : Some _ = Some _ |- _ =>
         inversion H; subst; lia end)))]);
  (split; [intros e Hin; trace_cases|]);
  rewrite Hw; simpl d_quad; simpl d_plasmalens;
  simpl d_quad_indices_arr; simpl d_plasmalens_indices_arr;
  rewrite ?element_block_none, ?Eq, ?Ep, ?element_block_none;
  eexists; reflexivity.
Qed.

End LatticeFacts.

(** ** The gather on the example lattice *)

Section LatticeExample.

Import Lattice.
Local Open Scope R_scope.

Lemma example_cell_index g u uz : cell_index (example_finder g u uz) 0 = 2%Z.
Proof.
  unfold cell_index, real_to_int. simpl.
  destruct (Rle_dec 0 ((5 / 2 - 0) / 1)) as [_|Hn]; [|exfalso; lra].
  symmetry. apply Int_part_spec. simpl. lra.
Qed.

Lemma example_tables_ok g u uz : tables_ok (example_finder g u uz) 0.
Proof.
  intros t Hn. rewrite example_cell_index.
  destruct t; simpl in *; [eexists; reflexivity | lia].
Qed.

Lemma example_lab_positions :
  lab_positions 2 (example_finder (5 / 4) (3 / 2) 0) 0 = (25 / 8, 37 / 8).
Proof.
  unfold lab_positions, particle_vzp. simpl.
  destruct (Rlt_dec 1 (5 / 4)) as [_|Hn]; [|exfalso; lra].
  f_equal; [lra|].
  generalize (particle_gamma 2 (example_finder (5 / 4) (3 / 2) 0) 0).
  intros g0. lra.
Qed.

(** One run of the gather, events and values: the particle sits in cell 2,
    which holds element 0; the element's field [(1, -2, 2, 1)] is boosted
    with [gamma = 5/4], [uz = 3/2], [c = 2] and added to the fields. *)
Example example_gather :
  operator_call 2 (example_finder (5 / 4) (3 / 2) 0) 0 example_fields [] =
  Some (mkFields (10 + - (1 / 4)) (20 + 1 / 2) 30 (40 + 7 / 4) (50 + 7 / 8) 60,
        [ReadIndex Quad 2; ReadIndex Quad 2; GetField Quad 0]).
Proof.
  rewrite operator_call_blocks. rewrite example_lab_positions.
  rewrite example_cell_index. simpl m_get_position. cbv beta iota.
  rewrite !element_block_run. simpl.
  unfold boost_fields. destruct (Rlt_dec 1 (5 / 4)) as [_|Hn]; [|exfalso; lra].
  do 2 f_equal. apply Fields_eq; simpl; unfold inv_c2; lra.
Qed.

(** The same particle in an unboosted run gets the element's field as it
    is. *)
Example example_gather_unboosted :
  operator_call 2 (example_finder 1 0 0) 0 example_fields [] =
  Some (mkFields 11 18 30 42 51 60,
        [ReadIndex Quad 2; ReadIndex Quad 2; GetField Quad 0]).
Proof.
  rewrite operator_call_blocks, example_cell_index.
  destruct (lab_positions 2 (example_finder 1 0 0) 0) as [z zpvdt].
  simpl m_get_position. cbv beta iota. rewrite !element_block_run. simpl.
  unfold boost_fields. destruct (Rlt_dec 1 1) as [Hn|_]; [exfalso; lra|].
  do 2 f_equal. apply Fields_eq; simpl; lra.
Qed.

End LatticeExample.

Lemma operator_call_boosts_lab_fields_witness :
  let F := Lattice.example_finder (5 / 4) (3 / 2) 0 in
  (1 < Lattice.m_gamma_boost F)%R /\
  Lattice.tables_ok F 0 /\
  exists s tr',
    Lattice.lattice_sums 2 F 0 [] = Some (s, tr') /\
    Lattice.operator_call 2 F 0 Lattice.example_fields [] =
    Some (Lattice.mkFields
            (10 + (5 / 4 * Lattice.t_Ex s - 3 / 2 * Lattice.t_By s))
            (20 + (5 / 4 * Lattice.t_Ey s + 3 / 2 * Lattice.t_Bx s))
            30
            (40 + (5 / 4 * Lattice.t_Bx s + 3 / 2 * Lattice.t_Ey s / (2 * 2)))
            (50 + (5 / 4 * Lattice.t_By s - 3 / 2 * Lattice.t_Ex s / (2 * 2)))
            60,
          tr')%R.
Proof.
  intros F.
  assert (Hb : (1 < Lattice.m_gamma_boost F)%R) by (simpl; lra).
  split; [exact Hb|].
  split; [apply example_tables_ok|].
  exact (operator_call_boosts_lab_fields 2 F 0 Lattice.example_fields []
           Hb (example_tables_ok _ _ _)).
Defined.

Lemma boost_round_trip_witness :
  (1 <= 5 / 4)%R /\
  (5 / 4 * (5 / 4) = 1 + 3 / 2 * (3 / 2) * Lattice.inv_c2 2)%R /\
  Lattice.boost_fields 2 (5 / 4) (- (3 / 2))
    (Lattice.boost_fields 2 (5 / 4) (3 / 2) (Lattice.mkT 1 (-2) 2 1))
  = Lattice.mkT 1 (-2) 2 1 /\
  Lattice.boost_fields 2 (5 / 4) (3 / 2)
    (Lattice.boost_fields 2 (5 / 4) (- (3 / 2)) (Lattice.mkT 1 (-2) 2 1))
  = Lattice.mkT 1 (-2) 2 1.
Proof.
  assert (H1 : (1 <= 5 / 4)%R) by lra.
  assert (H2 : (5 / 4 * (5 / 4)
                = 1 + 3 / 2 * (3 / 2) * Lattice.inv_c2 2)%R)
    by (unfold Lattice.inv_c2; lra).
  split; [exact H1|]. split; [exact H2|].
  exact (boost_round_trip 2 (5 / 4) (3 / 2) (Lattice.mkT 1 (-2) 2 1) H1 H2).
Defined.

Lemma particle_velocity_from_momentum_witness :
  let F := Lattice.example_finder (5 / 4) (3 / 2) 3 in
  (1 < Lattice.m_gamma_boost F)%R /\
  (snd (Lattice.lab_positions 2 F 0) =
   5 / 4 * (5 / 2 + 3 / sqrt (1 + (0 * 0 + 0 * 0 + 3 * 3) / (2 * 2)) * 1)
   + 3 / 2 * (0 + 1))%R.
Proof.
  intros F.
  assert (Hb : (1 < Lattice.m_gamma_boost F)%R) by (simpl; lra).
  split; [exact Hb|].
  exact (proj2 (proj2 (proj2 (proj2
           (particle_velocity_from_momentum 2 F 0)))) Hb).
Defined.

Lemma operator_call_increments_witness :
  let F := Lattice.example_finder (5 / 4) (3 / 2) 0 in
  Lattice.tables_ok F 0 /\
  exists s tr' out,
    Lattice.lattice_sums 2 F 0 [] = Some (s, tr') /\
    Lattice.operator_call 2 F 0 Lattice.example_fields [] = Some (out, tr') /\
    Lattice.field_Ez out = 30%R /\ Lattice.field_Bz out = 60%R.
Proof.
  intros F.
  assert (Hok : Lattice.tables_ok F 0) by apply example_tables_ok.
  split; [exact Hok|].
  destruct (operator_call_increments 2 F 0 Lattice.example_fields [] Hok)
    as (s & tr' & out & Hs & Hrun & Hez & Hbz & _).
  exists s, tr', out. repeat split; assumption.
Defined.

Lemma element_lookup_guarded_witness :
  let F := Lattice.example_finder (5 / 4) (3 / 2) 0 in
  Lattice.tables_ok F 0 /\
  exists out tr,
    Lattice.operator_call 2 F 0 Lattice.example_fields [] = Some (out, tr) /\
    (forall e, ~ In (Lattice.GetField Lattice.PlasmaLens e) tr) /\
    exists tr2,
      Lattice.operator_call 2 (Lattice.without_type Lattice.PlasmaLens F) 0
        Lattice.example_fields [] = Some (out, tr2).
Proof.
  intros F.
  assert (Hok : Lattice.tables_ok F 0) by apply example_tables_ok.
  split; [exact Hok|].
  destruct (element_lookup_guarded 2 F 0 Lattice.example_fields Hok)
    as (out & tr & Hrun & Hall).
  exists out, tr. split; [exact Hrun|].
  destruct (Hall Lattice.PlasmaLens) as (_ & _ & Hzero).
  apply Hzero. left. simpl. lia.
Defined.

(* ================================================================== *)
(** * Properties of the driver's setup *)
(* ================================================================== *)

Section DriverFacts.

Import Driver.
Local Open Scope Z_scope.

Variable c : R.
Variable d : SpaceDim.

Lemma obind_aborts {A B} (m : Outcome A) (k : A -> Outcome B) :
  aborts m -> aborts (obind m k).
Proof. intros [msg ->]. exists msg. reflexivity. Qed.

Lemma obind_Ok_inv {A B} (m : Outcome A) (k : A -> Outcome B) b :
  obind m k = Ok b -> exists a, m = Ok a /\ k a = Ok b.
Proof. destruct m as [a|msg]; simpl; [eauto|discriminate]. Qed.

Ltac case_outcomes :=
  repeat match goal with
         | |- context [match ?m with Ok _ => _ | Abort _ => _ end] =>
             destruct m as [?|?]
         | |- context [let '(_, _) := ?p in _] => destruct p
         end.

(** Past its last [Abort], [ReadParameters] has the orders of the input
    deck in the statics, and they have passed both checks. *)
Lemma ReadParameters_Ok_orders base pp w w' :
  ReadParameters c d base pp w = Ok w' ->
  (nox w', noy w', noz w') = requested_orders pp w /\
  nox w' = noy w' /\ nox w' = noz w' /\ 1 <= nox w'.
Proof.
  unfold ReadParameters, requested_orders, obind.
  destruct (isAllPeriodic base); case_outcomes; try discriminate.
  all: destruct (negb (_ =? _) || negb (_ =? _)) eqn:Heq; try discriminate.
  all: destruct (_ <? 1) eqn:Hlt; try discriminate.
  all: intros H; injection H as <-; simpl.
  all: apply orb_false_iff in Heq; destruct Heq as [Hxy Hxz].
  all: apply negb_false_iff, Z.eqb_eq in Hxy, Hxz.
  all: apply Z.ltb_ge in Hlt.
  all: repeat split; auto.
Qed.

(** Orders that differ, or an order below one, end [ReadParameters] in an
    [Abort]. *)
Lemma ReadParameters_bad_orders base pp w :
  (let '(x, y, z) := requested_orders pp w in x <> y \/ x <> z \/ x < 1) ->
  aborts (ReadParameters c d base pp w).
Proof.
  intros Hbad.
  destruct (ReadParameters c d base pp w) as [w'|msg] eqn:E;
    [|exists msg; reflexivity].
  apply ReadParameters_Ok_orders in E.
  destruct E as (Ereq & Hxy & Hxz & Hpos).
  rewrite <- Ereq in Hbad. lia.
Qed.

(** C3: with a maximum level other than zero the constructor of the
    driver object ends in an [Abort], so no object comes to exist that could
    be stepped; past [ReadParameters] the message is that of line 85. *)
Theorem WarpX_ctor_requires_single_level base pp new_mypc w0 :
  max_level base <> 0 ->
  aborts (WarpX_ctor c d base pp new_mypc w0) /\
  forall w, ReadParameters c d base pp w0 = Ok w ->
            WarpX_ctor c d base pp new_mypc w0
            = Abort "WarpX: max_level must be zero".
Proof.
  intros Hlev. apply Z.eqb_neq in Hlev.
  unfold WarpX_ctor.
  destruct (ReadParameters c d base pp w0) as [w|msg]; simpl.
  - rewrite Hlev. simpl. split; [eexists; reflexivity|].
    intros w1 _. reflexivity.
  - split; [eexists; reflexivity|]. intros w1 H. discriminate H.
Qed.

(** C4: when the three interpolation orders the input deck leaves in the
    statics are not all equal, or the order is below one, [ReadParameters]
    and with it the constructor end in an [Abort]; a run of either that
    goes on has three equal orders of at least one. *)
Theorem ReadParameters_rejects_bad_orders base pp new_mypc w :
  ((let '(x, y, z) := requested_orders pp w in x <> y \/ x <> z \/ x < 1) ->
   aborts (ReadParameters c d base pp w) /\
   aborts (WarpX_ctor c d base pp new_mypc w)) /\
  (forall w', ReadParameters c d base pp w = Ok w' ->
              nox w' = noy w' /\ nox w' = noz w' /\ 1 <= nox w') /\
  (forall w', WarpX_ctor c d base pp new_mypc w = Ok w' ->
              nox w' = noy w' /\ nox w' = noz w' /\ 1 <= nox w').
Proof.
  split; [|split].
  - intros Hbad.
    pose proof (ReadParameters_bad_orders base pp w Hbad) as Hab.
    split; [exact Hab|]. unfold WarpX_ctor. apply obind_aborts, Hab.
  - intros w' E. apply ReadParameters_Ok_orders in E. tauto.
  - intros w' E. unfold WarpX_ctor in E.
    apply obind_Ok_inv in E. destruct E as (w1 & E1 & E2).
    apply ReadParameters_Ok_orders in E1.
    destruct E1 as (_ & Hxy & Hxz & Hpos).
    destruct (negb (max_level base =? 0)); [discriminate|].
    destruct new_mypc as [[]|msg]; simpl in E2; [|discriminate].
    inversion E2; subst; simpl. tauto.
Qed.

End DriverFacts.

Section DriverExamples.

Import Driver.
Local Open Scope Z_scope.

(** A 3D run without input deck on a single level is set up, with the
    default orders of lines 24-26. *)
Example ctor_single_level :
  exists w, WarpX_ctor 299792458 Dim3 (example_AmrCore 0) empty_ParmParse
              (Ok tt) initial_WarpX = Ok w /\
            (nox w, noy w, noz w) = (1, 1, 1) /\ nsubsteps w = [1].
Proof. eexists. split; [reflexivity|]. split; reflexivity. Qed.

(** The same run with one level of refinement ends at line 85. *)
Example ctor_two_levels :
  WarpX_ctor 299792458 Dim3 (example_AmrCore 1) empty_ParmParse
    (Ok tt) initial_WarpX = Abort "WarpX: max_level must be zero".
Proof. reflexivity. Qed.

(** Orders that differ end at line 201, an order of zero at line 204. *)
Example orders_differ :
  ReadParameters 299792458 Dim2 (example_AmrCore 0) (orders_ParmParse 1 2 1)
    initial_WarpX = Abort "warpx.nox, noy and noz must be equal".
Proof. reflexivity. Qed.

Example order_zero :
  ReadParameters 299792458 Dim2 (example_AmrCore 0) (orders_ParmParse 0 0 0)
    initial_WarpX = Abort "warpx.nox must >= 1".
Proof. reflexivity. Qed.

(** In 2D the missing direction cannot be the one of the moving window. *)
Example moving_window_y_2d :
  parse_moving_window_dir Dim2 "y" = Abort "Unknown moving_window_dir: y" /\
  parse_moving_window_dir Dim3 "y" = Ok 1 /\
  parse_moving_window_dir Dim2 "z" = Ok 1 /\
  parse_moving_window_dir Dim3 "Z" = Ok 2.
Proof. repeat split; reflexivity. Qed.

End DriverExamples.

Lemma WarpX_ctor_requires_single_level_witness :
  Driver.max_level (Driver.example_AmrCore 1) <> 0%Z /\
  Driver.aborts
    (Driver.WarpX_ctor 299792458 Driver.Dim3 (Driver.example_AmrCore 1)
       Driver.empty_ParmParse (Driver.Ok tt) Driver.initial_WarpX).
Proof.
  assert (H : Driver.max_level (Driver.example_AmrCore 1) <> 0%Z)
    by (simpl; lia).
  split; [exact H|].
  exact (proj1 (WarpX_ctor_requires_single_level 299792458 Driver.Dim3
                  (Driver.example_AmrCore 1) Driver.empty_ParmParse
                  (Driver.Ok tt) Driver.initial_WarpX H)).
Defined.

Lemma ReadParameters_rejects_bad_orders_witness :
  (1 <> 2 \/ 1 <> 1 \/ 1 < 1)%Z /\
  Driver.aborts
    (Driver.ReadParameters 299792458 Driver.Dim3 (Driver.example_AmrCore 0)
       (Driver.orders_ParmParse 1 2 1) Driver.initial_WarpX) /\
  Driver.aborts
    (Driver.WarpX_ctor 299792458 Driver.Dim3 (Driver.example_AmrCore 0)
       (Driver.orders_ParmParse 1 2 1) (Driver.Ok tt) Driver.initial_WarpX).
Proof.
  assert (H : (1 <> 2 \/ 1 <> 1 \/ 1 < 1)%Z) by lia.
  split; [exact H|].
  exact (proj1 (ReadParameters_rejects_bad_orders 299792458 Driver.Dim3
                  (Driver.example_AmrCore 0) (Driver.orders_ParmParse 1 2 1)
                  (Driver.Ok tt) Driver.initial_WarpX) H).
Defined.

(* ================================================================== *)
(** * The staggering of the field components *)
(* ================================================================== *)

Section Staggering.

Import Driver.

(** The flags that coincide, as the program has them. *)
Example shared_flags_3d : shared_flags Dim3 = [].
Proof. reflexivity. Qed.

Example shared_flags_2d :
  shared_flags Dim2 = [(Ex, Bz); (Ez, Bx); (Bx, Ez); (Bz, Ex)].
Proof. reflexivity. Qed.

(** In 2D [Bx] and [Ez] are both at [(1,0)]: it is not so that any two
    different components have different flags in every build. *)
Lemma nodal_flags_shared_in_2d :
  ~ (forall (dim : SpaceDim) (f g : Component),
        f <> g -> nodal_flag dim f <> nodal_flag dim g).
Proof.
  intros H. apply (H Dim2 Bx Ez); [discriminate | reflexivity].
Qed.

(** C5, amended: in 3D any two different components have different flags;
    in 2D they do too, but for the pairs Ex/Bz and Ez/Bx, which the
    projection on the x-z plane puts on the same points. *)
Theorem nodal_flags_distinct_but_2d_pairs :
  (forall f g, f <> g -> nodal_flag Dim3 f <> nodal_flag Dim3 g) /\
  (forall f g, f <> g ->
     (nodal_flag Dim2 f = nodal_flag Dim2 g <->
      (f = Ex /\ g = Bz) \/ (f = Bz /\ g = Ex) \/
      (f = Ez /\ g = Bx) \/ (f = Bx /\ g = Ez))).
Proof.
  split.
  - intros f g Hne; destruct f, g; simpl; try discriminate;
      contradiction Hne; reflexivity.
  - intros f g Hne; destruct f, g; simpl;
      try (contradiction Hne; reflexivity);
      (split; [intros H; try discriminate H; tauto
              |intros H; try reflexivity;
               repeat (destruct H as [H|H]; try (destruct H; discriminate));
               destruct H; discriminate]).
Qed.

End Staggering.

Lemma nodal_flags_distinct_but_2d_pairs_witness :
  Driver.Ex <> Driver.Ey /\
  Driver.nodal_flag Driver.Dim3 Driver.Ex
  <> Driver.nodal_flag Driver.Dim3 Driver.Ey.
Proof.
  assert (H : Driver.Ex <> Driver.Ey) by discriminate.
  split; [exact H|].
  exact (proj1 nodal_flags_distinct_but_2d_pairs Driver.Ex Driver.Ey H).
Defined.

(* ================================================================== *)
(** * Properties of the buffer masks *)
(* ================================================================== *)

Section BufferFacts.

Import Buffers.
Local Open Scope Z_scope.

Variable Cell : Type.
Variable Cell_eq_dec : forall a b : Cell, {a = b} + {a <> b}.
Variable distance : Cell -> Cell -> Z.

Lemma interface_distance_nearest boundary cell m :
  interface_distance Cell distance boundary cell = Some m <->
  nearest_at Cell distance boundary cell m.
Proof.
  revert m. induction boundary as [|b rest IH]; intros m; simpl.
  - split; [discriminate|]. intros [[b [[] _]] _].
  - destruct (interface_distance Cell distance rest cell) as [m0|] eqn:E.
    + destruct (proj1 (IH m0) eq_refl) as [[b0 [Hin0 Hd0]] Hmin0].
      split.
      * intros H. injection H as <-. split.
        -- destruct (Z.min_spec (distance cell b) m0) as [[_ ->]|[_ ->]].
           ++ exists b. split; [left; reflexivity|reflexivity].
           ++ exists b0. split; [right; exact Hin0|exact Hd0].
        -- intros b' [<-|Hin]; [lia|]. specialize (Hmin0 b' Hin). lia.
      * intros [[b1 [Hin1 Hd1]] Hmin]. f_equal.
        pose proof (Hmin b (or_introl eq_refl)) as Hb.
        pose proof (Hmin b0 (or_intror Hin0)) as Hb0.
        destruct Hin1 as [<-|Hin1].
        -- lia.
        -- specialize (Hmin0 b1 Hin1). lia.
    + assert (Hrest : rest = []).
      { destruct rest as [|b1 rest']; [reflexivity|]. simpl in E.
        destruct (interface_distance Cell distance rest' cell); discriminate. }
      subst rest. split.
      * intros H. injection H as <-. split.
        -- exists b. split; [left; reflexivity|reflexivity].
        -- intros b' [<-|[]]. lia.
      * intros [[b1 [[<-|[]] Hd1]] _]. rewrite Hd1. reflexivity.
Qed.

Lemma is_buffer_true boundary width cell :
  is_buffer Cell distance boundary width cell = true <->
  exists m, nearest_at Cell distance boundary cell m /\ m < width.
Proof.
  unfold is_buffer.
  destruct (interface_distance Cell distance boundary cell) as [m|] eqn:E.
  - rewrite Z.ltb_lt. split.
    + intros H. exists m. split; [apply interface_distance_nearest, E|exact H].
    + intros [m' [Hn Hlt]]. apply interface_distance_nearest in Hn.
      rewrite E in Hn. injection Hn as ->. exact Hlt.
  - split; [discriminate|].
    intros [m' [Hn _]]. apply interface_distance_nearest in Hn.
    rewrite E in Hn. discriminate.
Qed.

(** Every cell of the level has its entry in the masks. *)
Lemma Classify_Build level boundary gw dw cell :
  In cell level ->
  Classify Cell Cell_eq_dec (Build Cell distance level boundary gw dw) cell =
  Some (mkFlags (is_buffer Cell distance boundary gw cell)
                (is_buffer Cell distance boundary dw cell)).
Proof.
  induction level as [|c0 rest IH]; simpl; [intros []|].
  intros Hin. destruct (Cell_eq_dec c0 cell) as [->|Hne]; [reflexivity|].
  destruct Hin as [Heq|Hin]; [contradiction|]. apply IH, Hin.
Qed.

(** C2: a cell of the level is flagged as field-gather buffer exactly when
    its distance to the nearest cell of the coarse-fine interface is below
    the gather width, and as current-deposition buffer exactly when that
    distance is below the deposit width; neither flag depends on the other
    width. *)
Theorem buffer_flags_by_distance level boundary gw dw cell :
  In cell level ->
  exists f,
    Classify Cell Cell_eq_dec (Build Cell distance level boundary gw dw) cell
    = Some f /\
    (gather_buffer f = true <->
     exists m, nearest_at Cell distance boundary cell m /\ m < gw) /\
    (deposit_buffer f = true <->
     exists m, nearest_at Cell distance boundary cell m /\ m < dw) /\
    (forall dw', exists f',
        Classify Cell Cell_eq_dec
                 (Build Cell distance level boundary gw dw') cell = Some f' /\
        gather_buffer f' = gather_buffer f) /\
    (forall gw', exists f',
        Classify Cell Cell_eq_dec
                 (Build Cell distance level boundary gw' dw) cell = Some f' /\
        deposit_buffer f' = deposit_buffer f).
Proof.
  intros Hin. eexists. split; [apply Classify_Build, Hin|]. simpl.
  split; [apply is_buffer_true|]. split; [apply is_buffer_true|].
  split; intros w'; eexists; (split; [apply Classify_Build, Hin|reflexivity]).
Qed.

End BufferFacts.

(** On a level of eight cells with the interface at both ends, a gather
    width of two and a deposit width of three: cell 2 is two cells from the
    interface, so it is deposit buffer only. *)
Example example_masks_cell_2 :
  Buffers.Classify Z Z.eq_dec Buffers.example_masks 2%Z
  = Some (Buffers.mkFlags false true) /\
  Buffers.Classify Z Z.eq_dec Buffers.example_masks 1%Z
  = Some (Buffers.mkFlags true true) /\
  Buffers.Classify Z Z.eq_dec Buffers.example_masks 4%Z
  = Some (Buffers.mkFlags false false).
Proof. repeat split; reflexivity. Qed.

Lemma buffer_flags_by_distance_witness :
  In 2%Z [0; 1; 2; 3; 4; 5; 6; 7]%Z /\
  exists f,
    Buffers.Classify Z Z.eq_dec Buffers.example_masks 2%Z = Some f /\
    (Buffers.gather_buffer f = true <->
     exists m, Buffers.nearest_at Z Buffers.distance_1d [0; 7]%Z 2%Z m /\ (m < 2)%Z).
Proof.
  assert (Hin : In 2%Z [0; 1; 2; 3; 4; 5; 6; 7]%Z) by (simpl; tauto).
  split; [exact Hin|].
  destruct (buffer_flags_by_distance Z Z.eq_dec Buffers.distance_1d
              [0; 1; 2; 3; 4; 5; 6; 7]%Z [0; 7]%Z 2%Z 3%Z 2%Z Hin)
    as (f & Hf & Hg & _).
  exists f. split; [exact Hf|exact Hg].
Defined.

(* ================================================================== *)
(** * Properties of the current from Ampere's law *)
(* ================================================================== *)

Section AmpereFacts.

Import Ampere.
Local Open Scope R_scope.

Variable Cell : Type.
Variable Dx Dy Dz : ScalarField Cell -> ScalarField Cell.
Variable mu0 : R.

(** C8: [CalculateCurrentAmpere] hands back as [J], at every point of the
    mesh, the curl of the magnetic field it is given divided by [mu0], with
    no other term, whatever [J] held before. *)
Theorem CalculateCurrentAmpere_curlB_over_mu0 (Jfield Bfield : VectorField Cell)
  (p : Cell) :
  let J := CalculateCurrentAmpere Cell Dx Dy Dz mu0 Jfield Bfield in
  comp_x Cell J p
  = (Dy (comp_z Cell Bfield) p - Dz (comp_y Cell Bfield) p) / mu0 /\
  comp_y Cell J p
  = (Dz (comp_x Cell Bfield) p - Dx (comp_z Cell Bfield) p) / mu0 /\
  comp_z Cell J p
  = (Dx (comp_y Cell Bfield) p - Dy (comp_x Cell Bfield) p) / mu0 /\
  (forall Jfield', CalculateCurrentAmpere Cell Dx Dy Dz mu0 Jfield' Bfield = J).
Proof.
  cbv zeta. repeat split.
Qed.

End AmpereFacts.

(** On the one-dimensional example mesh the field [By = k] gives the
    current [Jx = -1/mu0] at every point, and nothing along [y] and [z]. *)
Example example_current (mu0 : R) (k : Z) :
  let J := Ampere.CalculateCurrentAmpere Z Ampere.example_D0 Ampere.example_D0
             Ampere.example_Dz mu0 Ampere.example_B Ampere.example_B in
  (Ampere.comp_x Z J k = -1 / mu0 /\
   Ampere.comp_y Z J k = 0 /\
   Ampere.comp_z Z J k = 0)%R.
Proof.
  simpl. unfold Ampere.example_Dz, Ampere.example_D0.
  rewrite plus_IZR. repeat split; unfold Rdiv; ring.
Qed.

(* ================================================================== *)
(** * Further properties of the lattice-element gather *)
(* ================================================================== *)

Section LatticeMore.

Import Lattice.
Local Open Scope R_scope.

Variable c : R.



Lemma particle_gamma_sqr F i :
  particle_gamma c F i * particle_gamma c F i =
  1 + (m_ux F i * m_ux F i + m_uy F i * m_uy F i + m_uz F i * m_uz F i)
      * inv_c2 c.
Proof.
  unfold particle_gamma. apply sqrt_sqrt.
  assert (Hinv : 0 <= inv_c2 c).
  { unfold inv_c2. destruct (Req_dec (c * c) 0) as [E|E].
    - rewrite E. unfold Rdiv. rewrite Rinv_0. lra.
    - apply Rlt_le, Rdiv_lt_0_compat; [lra|]. nra. }
  assert (Hu : 0 <= m_ux F i * m_ux F i + m_uy F i * m_uy F i
                    + m_uz F i * m_uz F i) by nra.
  nra.
Qed.


(** X4: on the mass shell of the boost, the field transform of the gather keeps
    the two Lorentz invariants of the transverse fields: [E . B] and
    [E^2 - c^2 B^2]. *)
Theorem boost_fields_keeps_invariants gamma_boost uz_boost s :
  c <> 0 ->
  gamma_boost * gamma_boost = 1 + uz_boost * uz_boost * inv_c2 c ->
  let s' := boost_fields c gamma_boost uz_boost s in
  t_Ex s' * t_Bx s' + t_Ey s' * t_By s' = t_Ex s * t_Bx s + t_Ey s * t_By s /\
  (t_Ex s' * t_Ex s' + t_Ey s' * t_Ey s')
  - c * c * (t_Bx s' * t_Bx s' + t_By s' * t_By s')
  = (t_Ex s * t_Ex s + t_Ey s * t_Ey s)
    - c * c * (t_Bx s * t_Bx s + t_By s * t_By s).
Proof.
  intros Hc Hshell. cbv zeta. unfold boost_fields.
  destruct (Rlt_dec 1 gamma_boost) as [_|_]; [|split; reflexivity].
  assert (Hinv : c * c * inv_c2 c = 1) by (unfold inv_c2; field; exact Hc).
  destruct s as [ex ey bx by_]. unfold boost_formulas. simpl.
  set (k := inv_c2 c) in *. split.
  - transitivity ((gamma_boost * gamma_boost - uz_boost * uz_boost * k)
                  * (ex * bx + ey * by_)); [ring|].
    rewrite Hshell. ring.
  - transitivity
      ((gamma_boost * gamma_boost - uz_boost * uz_boost * k)
       * ((ex * ex + ey * ey) - c * c * (bx * bx + by_ * by_))
       + (1 - c * c * k)
         * (uz_boost * uz_boost * (bx * bx + by_ * by_)
            + uz_boost * uz_boost * k * (ex * ex + ey * ey)
            + 2 * gamma_boost * uz_boost * (ey * bx - ex * by_)));
      [ring|].
    rewrite Hshell, Hinv. ring.
Qed.


Lemma operator_call_without t F i fld tr :
  operator_call c (without_type t F) i fld tr =
  let '(x, y, _) := m_get_position F i in
  let '(z, zpvdt) := lab_positions c F i in
  match element_block Quad (d_quad (without_type t F))
          (d_quad_indices_arr (without_type t F))
          (cell_index F i) x y z zpvdt Transverse_zero tr with
  | None => None
  | Some (s1, tr1) =>
      match element_block PlasmaLens (d_plasmalens (without_type t F))
              (d_plasmalens_indices_arr (without_type t F)) (cell_index F i)
              x y z zpvdt s1 tr1 with
      | None => None
      | Some (s2, tr2) =>
          Some (accumulate fld
                  (boost_fields c (m_gamma_boost F) (m_uz_boost F) s2), tr2)
      end
  end.
Proof.
  rewrite operator_call_blocks, position_without, lab_positions_without,
    cell_index_without.
  destruct t; reflexivity.
Qed.

Lemma boost_fields_add gamma_boost uz_boost s1 s2 :
  boost_fields c gamma_boost uz_boost (Transverse_add s1 s2) =
  Transverse_add (boost_fields c gamma_boost uz_boost s1)
                 (boost_fields c gamma_boost uz_boost s2).
Proof.
  unfold boost_fields. destruct (Rlt_dec 1 gamma_boost); [|reflexivity].
  apply Transverse_eq; simpl; ring.
Qed.

Lemma boost_fields_zero gamma_boost uz_boost :
  boost_fields c gamma_boost uz_boost Transverse_zero = Transverse_zero.
Proof.
  unfold boost_fields. destruct (Rlt_dec 1 gamma_boost); [|reflexivity].
  apply Transverse_eq; simpl; ring.
Qed.

(** X6: the two element types superpose: what a gather adds to the fields is
    what the gather on the lattice of quadrupoles alone adds plus what the
    gather on the lattice of plasma lenses alone adds, and its events are
    those of the quadrupoles followed by those of the plasma lenses. *)
Theorem operator_call_superposes F i fld :
  tables_ok F i ->
  exists out outq outp tr trq trp,
    operator_call c F i fld [] = Some (out, tr) /\
    operator_call c (without_type PlasmaLens F) i fld [] = Some (outq, trq) /\
    operator_call c (without_type Quad F) i fld [] = Some (outp, trp) /\
    tr = trq ++ trp /\
    field_Ex out - field_Ex fld
    = (field_Ex outq - field_Ex fld) + (field_Ex outp - field_Ex fld) /\
    field_Ey out - field_Ey fld
    = (field_Ey outq - field_Ey fld) + (field_Ey outp - field_Ey fld) /\
    field_Bx out - field_Bx fld
    = (field_Bx outq - field_Bx fld) + (field_Bx outp - field_Bx fld) /\
    field_By out - field_By fld
    = (field_By outq - field_By fld) + (field_By outp - field_By fld).
Proof.
  intros Hok.
  pose proof (Hok Quad) as Hq. pose proof (Hok PlasmaLens) as Hp.
  simpl in Hq, Hp.
  rewrite operator_call_blocks, !operator_call_without.
  destruct (m_get_position F i) as [[x y] z0].
  destruct (lab_positions c F i) as [z zpvdt].
  simpl d_quad; simpl d_plasmalens;
    simpl d_quad_indices_arr; simpl d_plasmalens_indices_arr.
  destruct (element_block_cases Quad _ _ _ Hq)
    as [[Hnq Eq]|[(Hnq & vq & Evq & Hvq & Eq)|(Hnq & vq & Evq & Hvq & Eq)]];
  destruct (element_block_cases PlasmaLens _ _ _ Hp)
    as [[Hnp Ep]|[(Hnp & vp & Evp & Hvp & Ep)|(Hnp & vp & Evp & Hvp & Ep)]];
  rewrite ?element_block_none, ?Eq, ?Ep, ?element_block_none, ?Eq, ?Ep;
  do 6 eexists;
  (split; [reflexivity|]); (split; [reflexivity|]); (split; [reflexivity|]);
  (split; [reflexivity|]);
  rewrite ?boost_fields_add, ?boost_fields_zero; simpl; repeat split; ring.
Qed.

End LatticeMore.

(* ================================================================== *)
(** * Further properties of [ReadParameters] and of the constructor *)
(* ================================================================== *)

Section ReadFacts.

Import Driver ReadBlocks.
Local Open Scope string_scope.
Local Open Scope Z_scope.

Variable c : R.
Variable d : SpaceDim.

(** [ReadParameters] is its blocks in their order. *)
Lemma ReadParameters_blocks base pp w :
  ReadParameters c d base pp w =
  obind (moving_window_block c d base pp w) (fun mw =>
  obind (injection_block pp w) (fun inj =>
  obind (check_orders pp w) (fun _ =>
  Ok (read_state base pp w mw inj)))).
Proof.
  unfold ReadParameters, moving_window_block, injection_block, check_orders,
    read_state, requested_orders, obind.
  destruct (isAllPeriodic base);
    repeat match goal with
           | |- context [if ?b then _ else _] => destruct b
           | |- context [match ?m with Ok _ => _ | Abort _ => _ end] =>
               destruct m as [?|?]
           | |- context [let '(_, _) := ?p in _] => destruct p
           end; reflexivity.
Qed.

Lemma ReadParameters_Ok_iff base pp w w' :
  ReadParameters c d base pp w = Ok w' <->
  exists mw inj,
    moving_window_block c d base pp w = Ok mw /\
    injection_block pp w = Ok inj /\
    check_orders pp w = Ok tt /\
    w' = read_state base pp w mw inj.
Proof.
  rewrite ReadParameters_blocks. unfold obind. split.
  - destruct (moving_window_block c d base pp w) as [mw|]; [|discriminate].
    destruct (injection_block pp w) as [inj|]; [|discriminate].
    destruct (check_orders pp w) as [[]|]; [|discriminate].
    intros H. injection H as <-. exists mw, inj. auto.
  - intros (mw & inj & -> & -> & -> & ->). reflexivity.
Qed.

Lemma parse_moving_window_dir_range s k :
  parse_moving_window_dir d s = Ok k -> 0 <= k < BL_SPACEDIM d.
Proof.
  unfold parse_moving_window_dir.
  destruct ((s =? "x")%string || (s =? "X")%string).
  - intros H; injection H as <-. destruct d; simpl; lia.
  - destruct d; simpl.
    + destruct ((s =? "z")%string || (s =? "Z")%string); [|discriminate].
      intros H; injection H as <-. lia.
    + destruct ((s =? "y")%string || (s =? "Y")%string).
      * intros H; injection H as <-. lia.
      * destruct ((s =? "z")%string || (s =? "Z")%string); [|discriminate].
        intros H; injection H as <-. lia.
Qed.

Lemma parse_moving_window_dir_unknown s :
  s <> "x" -> s <> "X" -> s <> "z" -> s <> "Z" ->
  (d = Dim3 -> s <> "y" /\ s <> "Y") ->
  parse_moving_window_dir d s = Abort ("Unknown moving_window_dir: " ++ s).
Proof.
  intros Hx HX Hz HZ Hy. unfold parse_moving_window_dir.
  apply String.eqb_neq in Hx, HX, Hz, HZ. rewrite Hx, HX, Hz, HZ. simpl.
  destruct d; [reflexivity|].
  destruct (Hy eq_refl) as [Hy1 Hy2].
  apply String.eqb_neq in Hy1, Hy2. rewrite Hy1, Hy2. reflexivity.
Qed.

(** X7: with the moving window switched on, a direction that the build does
    not know ends [ReadParameters] with the message of line 170; in a 2D
    build "y" is such a direction. *)
Theorem ReadParameters_unknown_window_dir base pp w s :
  query (in_warpx_do_moving_window pp) (do_moving_window w) <> 0 ->
  in_warpx_moving_window_dir pp = Some s ->
  s <> "x" -> s <> "X" -> s <> "z" -> s <> "Z" ->
  (d = Dim3 -> s <> "y" /\ s <> "Y") ->
  ReadParameters c d base pp w = Abort ("Unknown moving_window_dir: " ++ s).
Proof.
  intros Hon Hdir Hx HX Hz HZ Hy.
  rewrite ReadParameters_blocks. unfold moving_window_block.
  apply Z.eqb_neq in Hon. rewrite Hon, Hdir. simpl.
  rewrite (parse_moving_window_dir_unknown s Hx HX Hz HZ Hy). reflexivity.
Qed.

(** X8: a feature that is switched on needs its keys: without the direction or
    the speed of the moving window, or without the number or the list of
    the injected species, [ReadParameters] ends in an [Abort]. *)
Theorem ReadParameters_missing_key base pp w :
  (query (in_warpx_do_moving_window pp) (do_moving_window w) <> 0 /\
   (in_warpx_moving_window_dir pp = None \/
    in_warpx_moving_window_v pp = None)) \/
  (query (in_warpx_do_plasma_injection pp) (do_plasma_injection w) <> 0 /\
   (in_warpx_num_injected_species pp = None \/
    in_warpx_injected_plasma_species pp = None)) ->
  aborts (ReadParameters c d base pp w).
Proof.
  intros H.
  destruct (ReadParameters c d base pp w) as [w'|msg] eqn:E;
    [|exists msg; reflexivity].
  exfalso. apply ReadParameters_Ok_iff in E.
  destruct E as (mw & inj & Hmw & Hinj & _ & _).
  unfold moving_window_block in Hmw. unfold injection_block in Hinj.
  destruct H as [[Hon [Hk|Hk]]|[Hon [Hk|Hk]]];
    apply Z.eqb_neq in Hon; rewrite Hon in *; simpl in *.
  - rewrite Hk in Hmw. discriminate.
  - rewrite Hk in Hmw.
    destruct (in_warpx_moving_window_dir pp); simpl in Hmw; [|discriminate].
    destruct (parse_moving_window_dir d s); simpl in Hmw; discriminate.
  - rewrite Hk in Hinj. discriminate.
  - rewrite Hk in Hinj.
    destruct (in_warpx_num_injected_species pp) as [n|]; simpl in Hinj;
      [|discriminate].
    destruct (resize n); simpl in Hinj; discriminate.
Qed.

(** X9: a run of [ReadParameters] that goes on with the moving window switched
    on has a direction inside the dimensions of the build, the window
    position at the low end of the domain along it, and the speed of the
    input deck multiplied by [c]; with the window off the three members are
    as they were. *)
Theorem ReadParameters_moving_window base pp w w' :
  ReadParameters c d base pp w = Ok w' ->
  (do_moving_window w' <> 0 ->
   0 <= moving_window_dir w' < BL_SPACEDIM d /\
   moving_window_x w' = ProbLo base (moving_window_dir w') /\
   exists v, in_warpx_moving_window_v pp = Some v /\
             moving_window_v w' = (v * c)%R) /\
  (do_moving_window w' = 0 ->
   moving_window_dir w' = moving_window_dir w /\
   moving_window_x w' = moving_window_x w /\
   moving_window_v w' = moving_window_v w).
Proof.
  intros E. apply ReadParameters_Ok_iff in E.
  destruct E as (mw & inj & Hmw & _ & _ & ->).
  destruct mw as [[dir x] v]. destruct inj as [n l].
  unfold read_state. destruct (isAllPeriodic base); simpl.
  all: unfold moving_window_block in Hmw.
  all: destruct (query (in_warpx_do_moving_window pp) (do_moving_window w)
                 =? 0) eqn:Hon; simpl in Hmw.
  all: try (apply Z.eqb_eq in Hon; injection Hmw as <- <- <-;
            split; [intros H; contradiction|intros _; auto]).
  all: apply Z.eqb_neq in Hon; (split; [intros _|intros H; contradiction]).
  all: destruct (in_warpx_moving_window_dir pp) as [s|]; simpl in Hmw;
    [|discriminate].
  all: destruct (parse_moving_window_dir d s) as [k|] eqn:Hk; simpl in Hmw;
    [|discriminate].
  all: destruct (in_warpx_moving_window_v pp) as [v0|]; simpl in Hmw;
    [|discriminate].
  all: injection Hmw as <- <- <-.
  all: split; [exact (parse_moving_window_dir_range s k Hk)|].
  all: split; [reflexivity|]. all: exists v0; auto.
Qed.

(** X10: on a domain that is periodic in every direction [do_pml] ends at zero
    and [pml_ncell] as it was, whatever the input deck says. *)
Theorem ReadParameters_periodic_no_pml base pp w w' :
  isAllPeriodic base = true ->
  ReadParameters c d base pp w = Ok w' ->
  do_pml w' = 0 /\ pml_ncell w' = pml_ncell w.
Proof.
  intros Hper E. apply ReadParameters_Ok_iff in E.
  destruct E as ([[dir x] v] & [n l] & _ & _ & _ & ->).
  unfold read_state. rewrite Hper. simpl. auto.
Qed.

(** X11: a run of [ReadParameters] that goes on with the injection switched on
    holds as many injected species as [num_injected_species] says: the
    first ones of the list in the input deck. *)
Theorem ReadParameters_injection base pp w w' :
  ReadParameters c d base pp w = Ok w' ->
  do_plasma_injection w' <> 0 ->
  exists l,
    in_warpx_injected_plasma_species pp = Some l /\
    in_warpx_num_injected_species pp = Some (num_injected_species w') /\
    0 <= num_injected_species w' <= Z.of_nat (List.length l) /\
    injected_plasma_species w'
    = firstn (Z.to_nat (num_injected_species w')) l /\
    Z.of_nat (List.length (injected_plasma_species w'))
    = num_injected_species w'.
Proof.
  intros E. apply ReadParameters_Ok_iff in E.
  destruct E as ([[dir x] v] & [n l] & _ & Hinj & _ & ->).
  unfold read_state. destruct (isAllPeriodic base); simpl.
  all: intros Hon; apply Z.eqb_neq in Hon.
  all: unfold injection_block in Hinj; rewrite Hon in Hinj; simpl in Hinj.
  all: destruct (in_warpx_num_injected_species pp) as [n0|]; simpl in Hinj;
    [|discriminate].
  all: unfold resize in Hinj; destruct (n0 <? 0) eqn:Hneg; simpl in Hinj;
    [discriminate|].
  all: unfold getarr in Hinj.
  all: destruct (in_warpx_injected_plasma_species pp) as [l0|];
    simpl in Hinj; [|discriminate].
  all: destruct ((0 <=? n0) && (n0 <=? Z.of_nat (List.length l0))) eqn:Hr;
    simpl in Hinj; [|discriminate].
  all: injection Hinj as <- <-.
  all: apply andb_true_iff in Hr; destruct Hr as [H0 H1].
  all: apply Z.leb_le in H0, H1.
  all: exists l0; repeat split; auto.
  all: rewrite length_firstn; lia.
Qed.

Lemma query_query {A} (e : option A) (v : A) :
  query e (query e v) = query e v.
Proof. destruct e; reflexivity. Qed.

(** X12: reading the same input deck a second time changes nothing: a state that
    [ReadParameters] has left is left as it is by a second run. *)
Theorem ReadParameters_idempotent base pp w w' :
  ReadParameters c d base pp w = Ok w' ->
  ReadParameters c d base pp w' = Ok w'.
Proof.
  intros E. apply ReadParameters_Ok_iff in E.
  destruct E as ([[dir x] v] & [n l] & Hmw & Hinj & Hchk & ->).
  apply ReadParameters_Ok_iff. exists (dir, x, v), (n, l).
  unfold moving_window_block, injection_block, check_orders,
    requested_orders, read_state in *.
  destruct (isAllPeriodic base); simpl; rewrite !query_query.
  all: split; [|split; [|split]]; try exact Hchk.
  all: try (destruct (query (in_warpx_do_moving_window pp)
                            (do_moving_window w) =? 0);
            [reflexivity|exact Hmw]).
  all: try (destruct (query (in_warpx_do_plasma_injection pp)
                            (do_plasma_injection w) =? 0);
            [reflexivity|exact Hinj]).
  all: f_equal; destruct (in_warpx_do_pml pp), (in_warpx_pml_ncell pp);
    reflexivity.
Qed.

(** X13: an input deck that names nothing leaves as it is a state with the
    moving window and the injection off and with equal orders of at least
    one, on a domain that is not periodic in every direction. *)
Theorem ReadParameters_empty_deck base w :
  isAllPeriodic base = false ->
  do_moving_window w = 0 -> do_plasma_injection w = 0 ->
  nox w = noy w -> nox w = noz w -> 1 <= nox w ->
  ReadParameters c d base empty_ParmParse w = Ok w.
Proof.
  intros Hper Hmw Hinj Hxy Hxz Hpos.
  apply ReadParameters_Ok_iff.
  exists (moving_window_dir w, moving_window_x w, moving_window_v w),
         (num_injected_species w, injected_plasma_species w).
  unfold moving_window_block, injection_block, check_orders,
    requested_orders, read_state. simpl.
  rewrite Hper, Hmw, Hinj, <- Hxy, <- Hxz. simpl.
  rewrite Z.eqb_refl. simpl.
  apply Z.ltb_ge in Hpos. rewrite Hpos.
  repeat split. destruct w; simpl in *. subst. reflexivity.
Qed.

(** X14: a constructor that returns has met [max_level = 0]: its per-level
    vectors hold the single base level, with one substep, and the
    refinement ratios are never looked at. *)
Theorem WarpX_ctor_single_level_state base pp new_mypc w0 w :
  WarpX_ctor c d base pp new_mypc w0 = Ok w ->
  max_level base = 0 /\
  istep w = [0] /\ nsubsteps w = [1] /\
  t_new w = [0%R] /\ t_old w = [(-1e100)%R] /\ dt w = [1e100%R] /\
  field_levels w = 1 /\
  exists w1, ReadParameters c d base pp w0 = Ok w1 /\
             (nox w, noy w, noz w) = (nox w1, noy w1, noz w1).
Proof.
  unfold WarpX_ctor. intros E.
  apply obind_Ok_inv in E. destruct E as (w1 & E1 & E2).
  destruct (max_level base =? 0) eqn:Hlev; simpl in E2; [|discriminate].
  apply Z.eqb_eq in Hlev.
  destruct new_mypc as [[]|msg]; simpl in E2; [|discriminate].
  injection E2 as <-. unfold init_nsubsteps. rewrite Hlev. simpl.
  repeat split; eauto.
Qed.

End ReadFacts.

(* ================================================================== *)
(** * Properties of the field arrays of a level *)
(* ================================================================== *)

Section LevelFacts.

Import Levels.
Local Open Scope Z_scope.

Variable BoxArray : Type.
Variable DistributionMapping : Type.
Variable convert : BoxArray -> Driver.IntVect -> BoxArray.
Variable d : Driver.SpaceDim.

Local Notation "'FA'" := (FieldArray BoxArray DistributionMapping).
Local Notation "'LD'" := (LevelData BoxArray DistributionMapping).

Lemma list_set_length {A} (l : list A) i v :
  List.length (Driver.list_set l i v) = List.length l.
Proof.
  revert i; induction l as [|a l IH]; intros [|i]; simpl; auto.
Qed.

Lemma nth_error_list_set_eq {A} (l : list A) i v a :
  nth_error l i = Some a -> nth_error (Driver.list_set l i v) i = Some v.
Proof.
  revert i; induction l as [|b l IH]; intros [|i]; simpl;
    try discriminate; auto.
Qed.

Lemma nth_error_list_set_neq {A} (l : list A) i j v :
  i <> j -> nth_error (Driver.list_set l i v) j = nth_error l j.
Proof.
  revert i j; induction l as [|b l IH]; intros [|i] [|j] H; simpl; auto;
    try contradiction.
Qed.

Lemma list_set_list_set {A} (l : list A) i v v' :
  Driver.list_set (Driver.list_set l i v) i v' = Driver.list_set l i v'.
Proof.
  revert i; induction l as [|b l IH]; intros [|i]; simpl; auto.
  f_equal. apply IH.
Qed.

Lemma list_set_same {A} (l : list A) i a :
  nth_error l i = Some a -> Driver.list_set l i a = l.
Proof.
  revert i; induction l as [|b l IH]; intros [|i]; simpl;
    try discriminate.
  - intros H; injection H as ->. reflexivity.
  - intros H. f_equal. apply IH, H.
Qed.

Lemma reset_Some (v : list FA) lev i p a :
  0 <= lev -> nth_error v (Z.to_nat lev) = Some a ->
  reset _ _ v lev i p
  = Some (Driver.list_set v (Z.to_nat lev) (set_comp _ _ a i p)).
Proof.
  intros Hlev Ha. unfold reset.
  apply Z.leb_le in Hlev. rewrite Hlev, Ha. reflexivity.
Qed.

Lemma reset_None (v : list FA) lev i p :
  lev < 0 \/ Z.of_nat (List.length v) <= lev ->
  reset _ _ v lev i p = None.
Proof.
  intros H. unfold reset.
  destruct (0 <=? lev) eqn:Hlev; [|reflexivity].
  apply Z.leb_le in Hlev.
  destruct (nth_error v (Z.to_nat lev)) eqn:E; [|reflexivity].
  exfalso. assert (Hlt : (Z.to_nat lev < List.length v)%nat).
  { apply nth_error_Some. congruence. }
  lia.
Qed.

(** What [AllocLevelData] leaves, when the level exists in the three
    vectors. *)
Lemma AllocLevelData_run nox lev ba dm (st : LD) jl el bl :
  0 <= lev ->
  nth_error (current _ _ st) (Z.to_nat lev) = Some jl ->
  nth_error (Efield _ _ st) (Z.to_nat lev) = Some el ->
  nth_error (Bfield _ _ st) (Z.to_nat lev) = Some bl ->
  let mf flag := Some (mkMultiFab _ _ (convert ba flag) dm 1 nox) in
  AllocLevelData _ _ convert d nox lev ba dm st =
  Some (mkLevelData _ _
          (Driver.list_set (current _ _ st) (Z.to_nat lev)
             (mkFieldArray _ _ (mf (Driver.jx_nodal_flag d))
                (mf (Driver.jy_nodal_flag d)) (mf (Driver.jz_nodal_flag d))))
          (Driver.list_set (Efield _ _ st) (Z.to_nat lev)
             (mkFieldArray _ _ (mf (Driver.Ex_nodal_flag d))
                (mf (Driver.Ey_nodal_flag d)) (mf (Driver.Ez_nodal_flag d))))
          (Driver.list_set (Bfield _ _ st) (Z.to_nat lev)
             (mkFieldArray _ _ (mf (Driver.Bx_nodal_flag d))
                (mf (Driver.By_nodal_flag d)) (mf (Driver.Bz_nodal_flag d))))).
Proof.
  intros Hlev Hj He Hb mf. unfold AllocLevelData. cbv zeta.
  do 9 (erewrite reset_Some;
        [cbn [andThen] | exact Hlev | eauto using nth_error_list_set_eq]).
  cbn [set_comp comp0 comp1 comp2]. rewrite !list_set_list_set. reflexivity.
Qed.

(** What [ClearLevel] leaves, when the level exists in the three
    vectors. *)
Lemma ClearLevel_run lev (st : LD) jl el bl :
  0 <= lev ->
  nth_error (current _ _ st) (Z.to_nat lev) = Some jl ->
  nth_error (Efield _ _ st) (Z.to_nat lev) = Some el ->
  nth_error (Bfield _ _ st) (Z.to_nat lev) = Some bl ->
  ClearLevel _ _ lev st =
  Some (mkLevelData _ _
          (Driver.list_set (current _ _ st) (Z.to_nat lev) (null_array _ _))
          (Driver.list_set (Efield _ _ st) (Z.to_nat lev) (null_array _ _))
          (Driver.list_set (Bfield _ _ st) (Z.to_nat lev) (null_array _ _))).
Proof.
  intros Hlev Hj He Hb. unfold ClearLevel. simpl fold_left.
  unfold ClearLevel_body. cbn [andThen].
  do 9 (erewrite reset_Some;
        [cbn [andThen current Efield Bfield] | exact Hlev
        | cbn [current Efield Bfield];
          eauto using nth_error_list_set_eq]).
  cbn [set_comp comp0 comp1 comp2]. rewrite !list_set_list_set. reflexivity.
Qed.


(** X16: on the vectors as the constructor sizes them, [AllocLevelData] is
    defined for the levels they hold and for no other: the level is never
    checked before the vectors are indexed. *)
Theorem AllocLevelData_defined_iff nox nlevs_max lev ba dm :
  AllocLevelData _ _ convert d nox lev ba dm
    (resize_levels BoxArray DistributionMapping nlevs_max) <> None <->
  0 <= lev < nlevs_max.
Proof.
  split.
  - intros H.
    destruct (Z_lt_dec lev 0) as [Hneg|Hpos].
    + exfalso. apply H. unfold AllocLevelData. cbv zeta.
      rewrite reset_None; [reflexivity|left; exact Hneg].
    + destruct (Z_lt_dec lev nlevs_max) as [Hlt|Hge]; [lia|].
      exfalso. apply H. unfold AllocLevelData. cbv zeta.
      rewrite reset_None; [reflexivity|].
      right. simpl. rewrite repeat_length. lia.
  - intros [H0 Hlt].
    assert (Hn : nth_error (repeat (null_array BoxArray DistributionMapping)
                              (Z.to_nat nlevs_max)) (Z.to_nat lev)
                 = Some (null_array _ _)).
    { apply nth_error_repeat. lia. }
    erewrite AllocLevelData_run; [discriminate|exact H0|exact Hn..].
Qed.

(** X17: allocating a level whose arrays are null and clearing it again gives
    back the state one started from. *)
Theorem ClearLevel_undoes_AllocLevelData nox lev ba dm (st : LD) :
  0 <= lev ->
  nth_error (current _ _ st) (Z.to_nat lev) = Some (null_array _ _) ->
  nth_error (Efield _ _ st) (Z.to_nat lev) = Some (null_array _ _) ->
  nth_error (Bfield _ _ st) (Z.to_nat lev) = Some (null_array _ _) ->
  exists st',
    AllocLevelData _ _ convert d nox lev ba dm st = Some st' /\
    ClearLevel _ _ lev st' = Some st.
Proof.
  intros Hlev Hj He Hb. eexists.
  split; [eapply AllocLevelData_run; eassumption|].
  erewrite ClearLevel_run;
    [|exact Hlev
     |cbn [current Efield Bfield]; eapply nth_error_list_set_eq; eassumption..].
  cbn [current Efield Bfield]. rewrite !list_set_list_set.
  rewrite !list_set_same by assumption. destruct st; reflexivity.
Qed.

End LevelFacts.

(* ================================================================== *)
(** * Properties of the index boxes and of the sampling *)
(* ================================================================== *)

Section MeshFacts.

Import Mesh.
Local Open Scope R_scope.

Lemma floor_spec r : IZR (floor r) <= r < IZR (floor r) + 1.
Proof.
  unfold floor. destruct (base_Int_part r) as [Hlo Hhi]. lra.
Qed.

Lemma floor_mono r1 r2 : r1 <= r2 -> (floor r1 <= floor r2)%Z.
Proof.
  intros H. pose proof (floor_spec r1) as H1. pose proof (floor_spec r2) as H2.
  assert (Hlt : (floor r1 < floor r2 + 1)%Z).
  { apply lt_IZR. rewrite plus_IZR. simpl. lra. }
  lia.
Qed.

Lemma floor_unique r n : IZR n <= r < IZR n + 1 -> floor r = n.
Proof.
  intros H. unfold floor. symmetry. apply Int_part_spec. lra.
Qed.


Lemma sample_index_on_grid gm flag dir (i : Z) :
  0 < geom_CellSize gm dir ->
  nth dir flag 0%Z = 0%Z \/ nth dir flag 0%Z = 1%Z ->
  sample_index gm flag dir (geom_ProbLo gm dir + IZR i * geom_CellSize gm dir)
  = i.
Proof.
  intros Hdx Hf. unfold sample_index. apply floor_unique.
  replace 0.5 with (/ 2) by lra.
  set (dx := geom_CellSize gm dir) in *.
  set (f := IZR (nth dir flag 0%Z)).
  assert (Hf' : f = 0 \/ f = 1).
  { unfold f. destruct Hf as [-> | ->]; auto. }
  replace ((geom_ProbLo gm dir + IZR i * dx - geom_ProbLo gm dir
            + / 2 * dx * f) / dx) with (IZR i + f / 2) by (field; lra).
  destruct Hf' as [-> | ->]; lra.
Qed.


Lemma Forall2_three {A B} (P : A -> B -> Prop) a0 a1 a2 l :
  Forall2 P [a0; a1; a2] l <->
  exists b0 b1 b2, l = [b0; b1; b2] /\ P a0 b0 /\ P a1 b1 /\ P a2 b2.
Proof.
  split.
  - intros H. inversion H as [|? b0 ? l0 P0 H0]; subst.
    inversion H0 as [|? b1 ? l1 P1 H1]; subst.
    inversion H1 as [|? b2 ? l2 P2 H2]; subst.
    inversion H2; subst. exists b0, b1, b2. auto.
  - intros (b0 & b1 & b2 & -> & P0 & P1 & P2). repeat constructor; auto.
Qed.

Lemma Forall2_three_r {A B} (P : A -> B -> Prop) b0 b1 b2 l :
  Forall2 P l [b0; b1; b2] <->
  exists a0 a1 a2, l = [a0; a1; a2] /\ P a0 b0 /\ P a1 b1 /\ P a2 b2.
Proof.
  split.
  - intros H. inversion H as [|a0 ? l0 ? P0 H0]; subst.
    inversion H0 as [|a1 ? l1 ? P1 H1]; subst.
    inversion H1 as [|a2 ? l2 ? P2 H2]; subst.
    inversion H2; subst. exists a0, a1, a2. auto.
  - intros (a0 & a1 & a2 & -> & P0 & P1 & P2). repeat constructor; auto.
Qed.


(** X21: the slice of [fillSlice] is one cell thick: all its cells have the
    [z]-index of the cell that holds [z_coord]. *)
Theorem slice_box_one_cell_thick gm dom z_coord l0 l1 l2 h0 h1 h2 iv :
  geom_Domain gm = mkBox [l0; l1; l2] [h0; h1; h2] ->
  Box_contains (slice_box gm dom z_coord) iv ->
  nth 2 iv 0%Z
  = floor ((z_coord - geom_ProbLo gm 2%nat) / geom_CellSize gm 2%nat).
Proof.
  intros Hdom. unfold slice_box, getIndexBox, Box_and, Box_contains.
  rewrite Hdom. simpl. intros [Hlo Hhi].
  apply Forall2_three in Hlo. destruct Hlo as (i0 & i1 & i2 & -> & ? & ? & ?).
  apply Forall2_three_r in Hhi.
  destruct Hhi as (j0 & j1 & j2 & E & ? & ? & ?).
  injection E as <- <- <-. simpl. lia.
Qed.

(** X22: the direction letters, the cell sizes, the lower corners and the nodal
    flags agree on the axes of a build: the index that the moving window
    gets for a letter is the one at which [CellSize] and [LowerCorner] read
    the geometry for that axis and at which every nodal flag of the build
    holds the entry the 3D flag has for that axis. *)
Theorem axes_agree d gm bx s p k :
  Driver.parse_moving_window_dir Driver.Dim3 s = Driver.Ok p ->
  Driver.parse_moving_window_dir d s = Driver.Ok k ->
  nth (Z.to_nat p) (CellSize d gm) 0 = geom_CellSize gm (Z.to_nat k) /\
  nth (Z.to_nat p) (LowerCorner d gm bx) 0
  = geom_ProbLo gm (Z.to_nat k)
    + IZR (nth (Z.to_nat k) (smallEnd bx) 0%Z) * geom_CellSize gm (Z.to_nat k)
  /\
  forall f, nth (Z.to_nat k) (Driver.nodal_flag d f) 0%Z
            = nth (Z.to_nat p) (Driver.nodal_flag Driver.Dim3 f) 0%Z.
Proof.
  unfold Driver.parse_moving_window_dir.
  destruct ((s =? "x")%string || (s =? "X")%string).
  - intros Hp Hk. injection Hp as <-. injection Hk as <-.
    destruct d; simpl; repeat split; intros f; destruct f; reflexivity.
  - destruct ((s =? "y")%string || (s =? "Y")%string) eqn:Hy.
    + intros Hp. injection Hp as <-. destruct d; simpl.
      * destruct ((s =? "z")%string || (s =? "Z")%string) eqn:Hz;
          intros Hk; [|discriminate].
        exfalso. apply orb_true_iff in Hy, Hz.
        destruct Hy as [Hy|Hy], Hz as [Hz|Hz];
          apply String.eqb_eq in Hy, Hz; subst s; discriminate.
      * intros Hk. injection Hk as <-.
        repeat split; intros f; destruct f; reflexivity.
    + destruct ((s =? "z")%string || (s =? "Z")%string); [|discriminate].
      intros Hp Hk. injection Hp as <-. destruct d; simpl in Hk;
        injection Hk as <-; simpl; repeat split; intros f; destruct f;
        reflexivity.
Qed.

End MeshFacts.

(* ================================================================== *)
(** * Properties of the electrostatic solve *)
(* ================================================================== *)

Section ElectrostaticFacts.

Import Electrostatic.
Local Open Scope R_scope.

Variable Point : Type.
Variable d : Driver.SpaceDim.
Variable domain_box : Point -> bool.
Variable solve_nodal : list Z -> Fab Point -> Fab Point -> Fab Point.


End ElectrostaticFacts.

(* ================================================================== *)
(** * The further properties on concrete inputs *)
(* ================================================================== *)




Lemma boost_fields_keeps_invariants_witness :
  let s := Lattice.mkT 1 (-2) 2 1 in
  let s' := Lattice.boost_fields 2 (5 / 4) (3 / 2) s in
  (2 <> 0)%R /\
  (Lattice.t_Ex s' * Lattice.t_Bx s' + Lattice.t_Ey s' * Lattice.t_By s'
   = Lattice.t_Ex s * Lattice.t_Bx s + Lattice.t_Ey s * Lattice.t_By s)%R.
Proof.
  intros s s'.
  assert (H1 : (2 <> 0)%R) by lra.
  assert (H2 : (5 / 4 * (5 / 4)
                = 1 + 3 / 2 * (3 / 2) * Lattice.inv_c2 2)%R)
    by (unfold Lattice.inv_c2; lra).
  split; [exact H1|].
  exact (proj1 (boost_fields_keeps_invariants 2 (5 / 4) (3 / 2) s H1 H2)).
Defined.


Lemma operator_call_superposes_witness :
  let F := Lattice.example_finder (5 / 4) (3 / 2) 0 in
  Lattice.tables_ok F 0 /\
  exists out outq outp tr trq trp,
    Lattice.operator_call 2 F 0 Lattice.example_fields [] = Some (out, tr) /\
    Lattice.operator_call 2 (Lattice.without_type Lattice.PlasmaLens F) 0
      Lattice.example_fields [] = Some (outq, trq) /\
    Lattice.operator_call 2 (Lattice.without_type Lattice.Quad F) 0
      Lattice.example_fields [] = Some (outp, trp) /\
    tr = trq ++ trp.
Proof.
  intros F.
  assert (Hok : Lattice.tables_ok F 0) by apply example_tables_ok.
  split; [exact Hok|].
  destruct (operator_call_superposes 2 F 0 Lattice.example_fields Hok)
    as (out & outq & outp & tr & trq & trp & H1 & H2 & H3 & H4 & _).
  exists out, outq, outp, tr, trq, trp. repeat split; assumption.
Defined.

Lemma ReadParameters_unknown_window_dir_witness :
  let pp := ReadBlocks.window_ParmParse (Some "y"%string) (Some 1%R) in
  Driver.query (Driver.in_warpx_do_moving_window pp)
    (Driver.do_moving_window Driver.initial_WarpX) <> 0%Z /\
  Driver.ReadParameters 299792458 Driver.Dim2 (Driver.example_AmrCore 0) pp
    Driver.initial_WarpX
  = Driver.Abort "Unknown moving_window_dir: y".
Proof.
  intros pp.
  assert (Hon : Driver.query (Driver.in_warpx_do_moving_window pp)
                  (Driver.do_moving_window Driver.initial_WarpX) <> 0%Z)
    by (simpl; lia).
  split; [exact Hon|].
  refine (ReadParameters_unknown_window_dir 299792458 Driver.Dim2
            (Driver.example_AmrCore 0) pp Driver.initial_WarpX "y"
            Hon eq_refl _ _ _ _ _); discriminate.
Defined.

Lemma ReadParameters_missing_key_witness :
  let pp := ReadBlocks.window_ParmParse None None in
  Driver.query (Driver.in_warpx_do_moving_window pp)
    (Driver.do_moving_window Driver.initial_WarpX) <> 0%Z /\
  Driver.in_warpx_moving_window_dir pp = None /\
  Driver.aborts
    (Driver.ReadParameters 299792458 Driver.Dim3 (Driver.example_AmrCore 0)
       pp Driver.initial_WarpX).
Proof.
  intros pp.
  assert (Hon : Driver.query (Driver.in_warpx_do_moving_window pp)
                  (Driver.do_moving_window Driver.initial_WarpX) <> 0%Z)
    by (simpl; lia).
  split; [exact Hon|]. split; [reflexivity|].
  exact (ReadParameters_missing_key 299792458 Driver.Dim3
           (Driver.example_AmrCore 0) pp Driver.initial_WarpX
           (or_introl (conj Hon (or_introl eq_refl)))).
Defined.

Lemma ReadParameters_moving_window_witness :
  let pp := ReadBlocks.window_ParmParse (Some "z"%string) (Some (1 / 2)%R) in
  exists w',
    Driver.ReadParameters 299792458 Driver.Dim2 (Driver.example_AmrCore 0) pp
      Driver.initial_WarpX = Driver.Ok w' /\
    Driver.do_moving_window w' <> 0%Z /\
    (0 <= Driver.moving_window_dir w' < 2)%Z.
Proof.
  intros pp. eexists. split; [reflexivity|].
  assert (Hon : (1 <> 0)%Z) by lia.
  split; [exact Hon|].
  exact (proj1 (proj1 (ReadParameters_moving_window 299792458 Driver.Dim2
                         (Driver.example_AmrCore 0) pp Driver.initial_WarpX
                         _ eq_refl) Hon)).
Defined.

Lemma ReadParameters_periodic_no_pml_witness :
  let pp :=
    Driver.mkParmParse None None None None None None None None None None
      (Some 1%Z) (Some 10%Z)
      None None None None None None None None None None None None
      None None None None in
  Driver.isAllPeriodic (Driver.example_AmrCore 0) = true /\
  exists w',
    Driver.ReadParameters 299792458 Driver.Dim3 (Driver.example_AmrCore 0) pp
      Driver.initial_WarpX = Driver.Ok w' /\
    Driver.do_pml w' = 0%Z /\
    Driver.pml_ncell w' = Driver.pml_ncell Driver.initial_WarpX.
Proof.
  intros pp. split; [reflexivity|]. eexists. split; [reflexivity|].
  exact (ReadParameters_periodic_no_pml 299792458 Driver.Dim3
           (Driver.example_AmrCore 0) pp Driver.initial_WarpX _
           eq_refl eq_refl).
Defined.

Lemma ReadParameters_injection_witness :
  let pp := ReadBlocks.injection_ParmParse 2 [5; 6; 7]%Z in
  exists w',
    Driver.ReadParameters 299792458 Driver.Dim3 (Driver.example_AmrCore 0) pp
      Driver.initial_WarpX = Driver.Ok w' /\
    Driver.do_plasma_injection w' <> 0%Z /\
    exists l,
      Driver.in_warpx_injected_plasma_species pp = Some l /\
      Driver.in_warpx_num_injected_species pp
      = Some (Driver.num_injected_species w') /\
      (0 <= Driver.num_injected_species w' <= Z.of_nat (List.length l))%Z /\
      Driver.injected_plasma_species w'
      = firstn (Z.to_nat (Driver.num_injected_species w')) l /\
      Z.of_nat (List.length (Driver.injected_plasma_species w'))
      = Driver.num_injected_species w'.
Proof.
  intros pp. eexists. split; [reflexivity|].
  assert (Hon : (1 <> 0)%Z) by lia.
  split; [exact Hon|].
  exact (ReadParameters_injection 299792458 Driver.Dim3
           (Driver.example_AmrCore 0) pp Driver.initial_WarpX _ eq_refl Hon).
Defined.

Lemma ReadParameters_idempotent_witness :
  let pp := Driver.orders_ParmParse 2 2 2 in
  exists w',
    Driver.ReadParameters 299792458 Driver.Dim3 (Driver.example_AmrCore 0) pp
      Driver.initial_WarpX = Driver.Ok w' /\
    Driver.ReadParameters 299792458 Driver.Dim3 (Driver.example_AmrCore 0) pp
      w' = Driver.Ok w'.
Proof.
  intros pp. eexists. split; [reflexivity|].
  exact (ReadParameters_idempotent 299792458 Driver.Dim3
           (Driver.example_AmrCore 0) pp Driver.initial_WarpX _ eq_refl).
Defined.

Lemma ReadParameters_empty_deck_witness :
  let base := Driver.mkAmrCore 0 false (fun _ => 0%R) (fun _ => 2%Z) in
  Driver.isAllPeriodic base = false /\
  (1 <= Driver.nox Driver.initial_WarpX)%Z /\
  Driver.ReadParameters 299792458 Driver.Dim3 base Driver.empty_ParmParse
    Driver.initial_WarpX = Driver.Ok Driver.initial_WarpX.
Proof.
  intros base.
  assert (Hpos : (1 <= Driver.nox Driver.initial_WarpX)%Z) by (simpl; lia).
  split; [reflexivity|]. split; [exact Hpos|].
  exact (ReadParameters_empty_deck 299792458 Driver.Dim3 base
           Driver.initial_WarpX eq_refl eq_refl eq_refl eq_refl eq_refl Hpos).
Defined.

Lemma WarpX_ctor_single_level_state_witness :
  exists w,
    Driver.WarpX_ctor 299792458 Driver.Dim3 (Driver.example_AmrCore 0)
      Driver.empty_ParmParse (Driver.Ok tt) Driver.initial_WarpX
    = Driver.Ok w /\
    Driver.istep w = [0%Z] /\ Driver.nsubsteps w = [1%Z].
Proof.
  eexists. split; [reflexivity|].
  pose proof (WarpX_ctor_single_level_state 299792458 Driver.Dim3
                (Driver.example_AmrCore 0) Driver.empty_ParmParse
                (Driver.Ok tt) Driver.initial_WarpX _ eq_refl)
    as (_ & H1 & H2 & _).
  split; [exact H1|exact H2].
Defined.


Lemma AllocLevelData_defined_iff_witness :
  (0 <= 1 < 2)%Z /\
  Levels.AllocLevelData Z unit (fun ba _ => ba) Driver.Dim3 1 1 8%Z tt
    (Levels.resize_levels Z unit 2) <> None.
Proof.
  assert (H : (0 <= 1 < 2)%Z) by lia.
  split; [exact H|].
  exact (proj2 (AllocLevelData_defined_iff Z unit (fun ba _ => ba)
                  Driver.Dim3 1 2 1 8%Z tt) H).
Defined.

Lemma ClearLevel_undoes_AllocLevelData_witness :
  let st := Levels.resize_levels Z unit 2 in
  (0 <= 1)%Z /\
  exists st',
    Levels.AllocLevelData Z unit (fun ba _ => ba) Driver.Dim3 1 1 8%Z tt st
    = Some st' /\
    Levels.ClearLevel Z unit 1 st' = Some st.
Proof.
  intros st.
  assert (H0 : (0 <= 1)%Z) by lia.
  split; [exact H0|].
  exact (ClearLevel_undoes_AllocLevelData Z unit (fun ba _ => ba) Driver.Dim3
           1 1 8%Z tt st H0 eq_refl eq_refl eq_refl).
Defined.

Lemma example_geom_cells (k : nat) : (0 < Mesh.geom_CellSize Mesh.example_geom k)%R.
Proof. simpl. lra. Qed.




Lemma example_slice_contains :
  Mesh.Box_contains
    (Mesh.slice_box Mesh.example_geom
       (Mesh.mkRealBox (fun _ => 0%R) (fun _ => 8%R)) (5 / 2))
    [0; 0; 2]%Z.
Proof.
  unfold Mesh.slice_box, Mesh.getIndexBox, Mesh.Box_and, Mesh.Box_contains.
  simpl.
  replace (Mesh.floor ((0 - 0) / 1)) with 0%Z
    by (symmetry; apply floor_unique; simpl; lra).
  replace (Mesh.floor ((8 - 0) / 1)) with 8%Z
    by (symmetry; apply floor_unique; simpl; lra).
  replace (Mesh.floor ((5 / 2 - 0) / 1)) with 2%Z
    by (symmetry; apply floor_unique; simpl; lra).
  split; repeat constructor; lia.
Qed.

Lemma slice_box_one_cell_thick_witness :
  let dom := Mesh.mkRealBox (fun _ => 0%R) (fun _ => 8%R) in
  Mesh.Box_contains (Mesh.slice_box Mesh.example_geom dom (5 / 2))
    [0; 0; 2]%Z /\
  nth 2 [0; 0; 2]%Z 0%Z
  = Mesh.floor ((5 / 2 - Mesh.geom_ProbLo Mesh.example_geom 2)
                / Mesh.geom_CellSize Mesh.example_geom 2).
Proof.
  intros dom. split; [exact example_slice_contains|].
  exact (slice_box_one_cell_thick Mesh.example_geom dom (5 / 2) 0 0 0 7 7 7
           [0; 0; 2]%Z eq_refl example_slice_contains).
Defined.

Lemma axes_agree_witness :
  Driver.parse_moving_window_dir Driver.Dim3 "z" = Driver.Ok 2%Z /\
  Driver.parse_moving_window_dir Driver.Dim2 "z" = Driver.Ok 1%Z /\
  nth 2 (Mesh.CellSize Driver.Dim2 Mesh.example_geom) 0%R
  = Mesh.geom_CellSize Mesh.example_geom 1.
Proof.
  split; [reflexivity|]. split; [reflexivity|].
  exact (proj1 (axes_agree Driver.Dim2 Mesh.example_geom
                  (Mesh.mkBox [0; 0]%Z [7; 7]%Z) "z" 2 1 eq_refl eq_refl)).
Defined.
